(** * go-wav: a shallow embedding of [wav.go] and its properties

    The Go package [wav] decodes a RIFF/WAVE byte buffer into a [File]
    ([Unmarshal]), encodes a [File] back ([Marshal]), reads and appends the
    payload byte by byte ([Read], [Write]) and converts the payload to 32-bit
    samples ([Int32s]).  Fixed-width Go integers are integers of [Z] with the
    wrap-around written out where the code computes; byte slices are lists of
    [Byte.byte]; a Go call either returns, returns an [error], or panics. *)

From Stdlib Require Import ZArith List Lia Bool.
From Stdlib.Strings Require Import Byte String.
Import ListNotations.
Open Scope Z_scope.

Ltac Zify.zify_post_hook ::= Z.to_euclidean_division_equations.

Abbreviation len := (@List.length _).

(** ** The Go run time *)

Inductive panic : Type :=
| DivideByZero       (* runtime error: integer divide by zero *)
| IndexOutOfRange    (* runtime error: index out of range *)
| LenOutOfRange.     (* runtime error: makeslice: len out of range *)

Inductive error : Type :=
| ErrNilStream                          (* "error: nil WAVE stream" *)
| ErrUnsupportedFormatTag (tag : Z)     (* Unmarshal: "error: invalid format tag '%v'" *)
| ErrInvalidFormatTag                   (* Marshal: "error: invalid format tag" *)
| ErrInvalidBitsPerSample (bits : Z)    (* New: "wav: invalid bits per sample (%v bit)" *)
| EOF.                                  (* io.EOF *)

(** What a call does: it returns a value, returns a non-nil [error], or panics. *)
Inductive outcome (A : Type) : Type :=
| Ok (a : A)
| Error (e : error)
| Panic (p : panic).
Arguments Ok {A} a.
Arguments Error {A} e.
Arguments Panic {A} p.

Definition bind {A B : Type} (m : outcome A) (k : A -> outcome B) : outcome B :=
  match m with
  | Ok a => k a
  | Error e => Error e
  | Panic p => Panic p
  end.

Notation "x <- m ;; k" := (bind m (fun x => k))
  (at level 61, m at next level, right associativity).

(** Conversions to the fixed-width types (two's complement truncation). *)
Definition uint16 (z : Z) : Z := z mod 2 ^ 16.
Definition uint32 (z : Z) : Z := z mod 2 ^ 32.
Definition int8 (z : Z) : Z := (z + 2 ^ 7) mod 2 ^ 8 - 2 ^ 7.
Definition int16 (z : Z) : Z := (z + 2 ^ 15) mod 2 ^ 16 - 2 ^ 15.
Definition int32 (z : Z) : Z := (z + 2 ^ 31) mod 2 ^ 32 - 2 ^ 31.
Definition int64 (z : Z) : Z := (z + 2 ^ 63) mod 2 ^ 64 - 2 ^ 63.

Definition is_uint16 (z : Z) : Prop := 0 <= z < 2 ^ 16.
Definition is_uint32 (z : Z) : Prop := 0 <= z < 2 ^ 32.
Definition is_int (z : Z) : Prop := - 2 ^ 63 <= z < 2 ^ 63.

(** Go's [/] on integers truncates toward zero and panics on a zero divisor. *)
Definition go_div (a b : Z) : outcome Z :=
  if b =? 0 then Panic DivideByZero else Ok (Z.quot a b).

(** Slices: [s[i]] and [s[i] = x] panic out of range; [make] gives zeros and
    panics on a negative length. *)
Definition load {A : Type} (s : list A) (i : Z) : outcome A :=
  if i <? 0 then Panic IndexOutOfRange
  else match nth_error s (Z.to_nat i) with
       | Some x => Ok x
       | None => Panic IndexOutOfRange
       end.

Fixpoint update {A : Type} (s : list A) (n : nat) (x : A) : list A :=
  match s, n with
  | [], _ => []
  | _ :: t, O => x :: t
  | h :: t, S k => h :: update t k x
  end.

Definition store {A : Type} (s : list A) (i : Z) (x : A) : outcome (list A) :=
  if (i <? 0) || (Z.of_nat (len s) <=? i) then Panic IndexOutOfRange
  else Ok (update s (Z.to_nat i) x).

Definition make {A : Type} (zero : A) (n : Z) : outcome (list A) :=
  if n <? 0 then Panic LenOutOfRange else Ok (repeat zero (Z.to_nat n)).

(** ** Bytes and [encoding/binary] *)

Definition u8 (b : byte) : Z := Z.of_N (Byte.to_N b).

Definition byte_of (z : Z) : byte :=
  match Byte.of_N (Z.to_N (z mod 256)) with
  | Some b => b
  | None => x00
  end.

Module binary.

(** [LittleEndian.Uint16], [Uint32], ...: the unsigned value of a byte string. *)
Fixpoint le_uint (bs : list byte) : Z :=
  match bs with
  | [] => 0
  | b :: rest => u8 b + 256 * le_uint rest
  end.

(** [LittleEndian.PutUint16], [PutUint32]: the [w] low bytes, lowest first. *)
Fixpoint put_le (w : nat) (z : Z) : list byte :=
  match w with
  | O => []
  | S k => byte_of z :: put_le k (z / 256)
  end.

(** [binary.Read(r, LittleEndian, &x)] for an unsigned [x] of [w] bytes:
    [io.ReadFull] fills a [w]-byte buffer or fails, and on failure [x]
    keeps its value (the callers drop the error). *)
Definition Read_uint (r : list byte) (w : nat) (old : Z) : Z :=
  if (len r <? w)%nat then old else le_uint (firstn w r).

(** The elements of a slice of [n] integers of [w] bytes each. *)
Fixpoint elems (w n : nat) (bs : list byte) : list Z :=
  match n with
  | O => []
  | S k => le_uint (firstn w bs) :: elems w k (skipn w bs)
  end.

(** [binary.Read(r, LittleEndian, &s)] for a slice [s] of fixed-width
    integers: all of [len(s) * w] bytes are read first; when the reader is
    short nothing is decoded and [s] is left as it was. [conv] reinterprets
    the unsigned value at the element type. *)
Definition Read_slice (r : list byte) (w : nat) (conv : Z -> Z) (old : list Z) : list Z :=
  if (len r <? len old * w)%nat then old
  else map conv (elems w (len old) r).

End binary.

(** [io.NewSectionReader(bytes.NewReader(stream), off, n)]: the bytes of the
    window, cut short where the stream ends. *)
Definition SectionReader (stream : list byte) (off n : Z) : list byte :=
  firstn (Z.to_nat n) (skipn (Z.to_nat off) stream).

Definition ascii_bytes (s : string) : list byte := list_byte_of_string s.

(** ** The package *)

Definition WAVE_FORMAT_PCM : Z := 0x1.
Definition WAVE_FORMAT_EXTENSIBLE : Z := 0xFFFE.

Record File : Type := mkFile {
  formatTag : Z;        (* uint16 *)
  channels : Z;         (* uint16 *)
  samplesPerSec : Z;    (* uint32 *)
  avgBytesPerSec : Z;   (* uint32 *)
  blockAlign : Z;       (* uint16 *)
  bitsPerSample : Z;    (* uint16 *)
  length : Z;           (* uint32 *)
  data : list byte;
  offset : Z            (* int *)
}.

(** The zero value [File{}]. *)
Definition File_zero : File := mkFile 0 0 0 0 0 0 0 [] 0.

(** The fields hold values of their Go types. *)
Definition File_typed (v : File) : Prop :=
  is_uint16 (formatTag v) /\ is_uint16 (channels v) /\
  is_uint32 (samplesPerSec v) /\ is_uint32 (avgBytesPerSec v) /\
  is_uint16 (blockAlign v) /\ is_uint16 (bitsPerSample v) /\
  is_uint32 (length v) /\ is_int (offset v).

Definition set_formatTag (v : File) (x : Z) : File :=
  mkFile x (channels v) (samplesPerSec v) (avgBytesPerSec v) (blockAlign v)
         (bitsPerSample v) (length v) (data v) (offset v).
Definition set_channels (v : File) (x : Z) : File :=
  mkFile (formatTag v) x (samplesPerSec v) (avgBytesPerSec v) (blockAlign v)
         (bitsPerSample v) (length v) (data v) (offset v).
Definition set_samplesPerSec (v : File) (x : Z) : File :=
  mkFile (formatTag v) (channels v) x (avgBytesPerSec v) (blockAlign v)
         (bitsPerSample v) (length v) (data v) (offset v).
Definition set_avgBytesPerSec (v : File) (x : Z) : File :=
  mkFile (formatTag v) (channels v) (samplesPerSec v) x (blockAlign v)
         (bitsPerSample v) (length v) (data v) (offset v).
Definition set_blockAlign (v : File) (x : Z) : File :=
  mkFile (formatTag v) (channels v) (samplesPerSec v) (avgBytesPerSec v) x
         (bitsPerSample v) (length v) (data v) (offset v).
Definition set_bitsPerSample (v : File) (x : Z) : File :=
  mkFile (formatTag v) (channels v) (samplesPerSec v) (avgBytesPerSec v) (blockAlign v)
         x (length v) (data v) (offset v).
Definition set_length (v : File) (x : Z) : File :=
  mkFile (formatTag v) (channels v) (samplesPerSec v) (avgBytesPerSec v) (blockAlign v)
         (bitsPerSample v) x (data v) (offset v).
Definition set_data (v : File) (x : list byte) : File :=
  mkFile (formatTag v) (channels v) (samplesPerSec v) (avgBytesPerSec v) (blockAlign v)
         (bitsPerSample v) (length v) x (offset v).
Definition set_offset (v : File) (x : Z) : File :=
  mkFile (formatTag v) (channels v) (samplesPerSec v) (avgBytesPerSec v) (blockAlign v)
         (bitsPerSample v) (length v) (data v) x.

(** Accessors: each converts an unsigned field to [int], which keeps its value. *)
Definition FormatTag (v : File) : Z := formatTag v.
Definition Channels (v : File) : Z := channels v.
Definition SamplesPerSec (v : File) : Z := samplesPerSec v.
Definition AvgBytesPerSec (v : File) : Z := avgBytesPerSec v.
Definition BlockAlign (v : File) : Z := blockAlign v.
Definition BitsPerSample (v : File) : Z := bitsPerSample v.
Definition Length (v : File) : Z := length v.
Definition Bytes (v : File) : list byte := data v.

(** [time.Second], in the nanoseconds a [time.Duration] counts. *)
Definition Second : Z := 1000000000.

(** [time.Duration(v.Length()/v.BlockAlign()) * time.Second], an [int64]. *)
Definition Duration (v : File) : outcome Z :=
  q <- go_div (Length v) (BlockAlign v) ;;
  Ok (int64 (q * Second)).

(** [int(v.length) / int(v.blockAlign/v.channels)]. *)
Definition Samples (v : File) : outcome Z :=
  per <- go_div (blockAlign v) (channels v) ;;
  go_div (length v) per.

(** [New] sets the tag first, then rejects a depth that is no multiple of 8. *)
Definition New (samplesPerSec' bitsPerSample' channels' : Z) : outcome File :=
  let audio := File_zero in
  let audio := if bitsPerSample' >? 16
               then set_formatTag audio WAVE_FORMAT_EXTENSIBLE
               else set_formatTag audio WAVE_FORMAT_PCM in
  if negb (Z.rem bitsPerSample' 8 =? 0)
  then Error (ErrInvalidBitsPerSample bitsPerSample')
  else
    let audio := set_samplesPerSec audio (uint32 samplesPerSec') in
    let audio := set_channels audio (uint16 channels') in
    let audio := set_bitsPerSample audio (uint16 bitsPerSample') in
    let audio := set_blockAlign audio
                   (Z.quot (uint16 (channels audio * bitsPerSample audio)) 8) in
    let audio := set_avgBytesPerSec audio
                   (uint32 (samplesPerSec audio * uint32 (blockAlign audio))) in
    let audio := set_data audio [] in
    Ok audio.

(** [Read]: the loop over the part of [p] still to fill.  It stops with
    [io.EOF] as soon as [offset >= length], else copies [data[offset]]. The
    result is the new contents of that part of [p], the number of bytes
    stored, the new offset and the error returned. *)
Fixpoint Read_loop (data : list byte) (length : Z) (p : list byte) (offset : Z)
  : outcome (list byte * Z * Z * option error) :=
  match p with
  | [] => Ok ([], 0, offset, None)
  | _ :: rest =>
      if offset >=? length then Ok (p, 0, offset, Some EOF)
      else
        b <- load data offset ;;
        r <- Read_loop data length rest (offset + 1) ;;
        let '(rest', n, offset', err) := r in
        Ok (b :: rest', n + 1, offset', err)
  end.

(** [v.Read(p)]: the file afterwards, [p] afterwards, [n] and [err]. *)
Definition Read (v : File) (p : list byte) : outcome (File * list byte * Z * option error) :=
  r <- Read_loop (data v) (Length v) p (offset v) ;;
  let '(p', n, offset', err) := r in
  Ok (set_offset v offset', p', n, err).

(** [v.Write(b)]: appends [b] byte by byte, then adds [len(b)] to [length]. *)
Definition Write (v : File) (b : list byte) : File * Z * option error :=
  let size := Z.of_nat (len b) in
  let v := set_data v (fold_left (fun d x => d ++ [x]) b (data v)) in
  let v := set_length v (uint32 (length v + uint32 size)) in
  (v, size, None).

Definition fromS8ToInt32s (v : File) : outcome (list Z) :=
  let scale := 2 ^ 24 in
  samples <- Samples v ;;
  s8 <- make 0 samples ;;
  let s8 := binary.Read_slice (data v) 1 int8 s8 in
  Ok (map (fun x => int32 (x * scale)) s8).

Definition fromS16ToInt32s (v : File) : outcome (list Z) :=
  let scale := 2 ^ 16 in
  samples <- Samples v ;;
  s16 <- make 0 samples ;;
  let s16 := binary.Read_slice (data v) 2 int16 s16 in
  Ok (map (fun x => int32 (x * scale)) s16).

(** One turn of the loop of [fromS24ToInt32s] at index [i]. *)
Definition fromS24_step (src dst : list byte) (i : Z) : outcome (list byte) :=
  let n := Z.quot i 3 + 1 in
  b0 <- load src i ;;
  dst <- store dst (n + i) b0 ;;
  b1 <- load src (i + 1) ;;
  dst <- store dst (n + i + 1) b1 ;;
  b2 <- load src (i + 2) ;;
  store dst (n + i + 2) b2.

(** [for i := 0; i < length; i += 3]: the body runs for [i = 0, 3, 6, ...],
    [trips] times in all. *)
Fixpoint fromS24_loop (trips : nat) (src dst : list byte) (i : Z) : outcome (list byte) :=
  match trips with
  | O => Ok dst
  | S k => dst' <- fromS24_step src dst i ;; fromS24_loop k src dst' (i + 3)
  end.

Definition fromS24ToInt32s (v : File) : outcome (list Z) :=
  let scale := 2 ^ 8 in
  let length := Length v in
  samples <- Samples v ;;
  data' <- make x00 (samples * 4) ;;
  s32 <- make 0 samples ;;
  data' <- fromS24_loop (Z.to_nat ((length + 2) / 3)) (data v) data' 0 ;;
  let s32 := binary.Read_slice data' 4 int32 s32 in
  Ok (map (fun x => int32 (x * scale)) s32).

Definition fromS32ToInt32s (v : File) : outcome (list Z) :=
  samples <- Samples v ;;
  s32 <- make 0 samples ;;
  Ok (binary.Read_slice (data v) 4 int32 s32).

Definition Int32s (v : File) : outcome (list Z) :=
  let bits := BitsPerSample v in
  if bits =? 8 then fromS8ToInt32s v
  else if bits =? 16 then fromS16ToInt32s v
  else if bits =? 24 then fromS24ToInt32s v
  else if bits =? 32 then fromS32ToInt32s v
  else Ok [].

(** A [float64] that is [mantissa * 2 ^ exponent] exactly.  Every [int32]
    and its quotient by [1 << 31] is such a value, so [Float64s] needs no
    rounding. *)
Record float64 : Type := mkFloat64 { mantissa : Z; exponent : Z }.

(** [for i := 0; i < samples; i++ { f64[i] = float64(s32[i]) / scale }]. *)
Fixpoint Float64s_loop (s32 : list Z) (i : Z) (turns : nat) : outcome (list float64) :=
  match turns with
  | O => Ok []
  | S k =>
      x <- load s32 i ;;
      rest <- Float64s_loop s32 (i + 1) k ;;
      Ok (mkFloat64 x (-31) :: rest)
  end.

Definition Float64s (v : File) : outcome (list float64) :=
  samples <- Samples v ;;
  s32 <- Int32s v ;;
  _ <- make (mkFloat64 0 0) samples ;;
  Float64s_loop s32 0 (Z.to_nat samples).

(** [Unmarshal(stream, audio)]: the destination afterwards ([None] is the nil
    pointer) and the error returned.  Every [binary.Read] stores straight into
    the destination's field and its error is dropped. *)
Definition Unmarshal (stream : list byte) (audio : option File)
  : (option File * option error)%type :=
  match audio with
  | None => (None, Some ErrNilStream)
  | Some audio =>
      let audio := set_formatTag audio
                     (binary.Read_uint (SectionReader stream 20 2) 2 (formatTag audio)) in
      if negb ((formatTag audio =? WAVE_FORMAT_PCM)
               || (formatTag audio =? WAVE_FORMAT_EXTENSIBLE))
      then (Some audio, Some (ErrUnsupportedFormatTag (formatTag audio)))
      else
        let audio := set_channels audio
                       (binary.Read_uint (SectionReader stream 22 2) 2 (channels audio)) in
        let audio := set_samplesPerSec audio
                       (binary.Read_uint (SectionReader stream 24 4) 4 (samplesPerSec audio)) in
        let audio := set_avgBytesPerSec audio
                       (binary.Read_uint (SectionReader stream 28 4) 4 (avgBytesPerSec audio)) in
        let audio := set_blockAlign audio
                       (binary.Read_uint (SectionReader stream 32 2) 2 (blockAlign audio)) in
        let audio := set_bitsPerSample audio
                       (binary.Read_uint (SectionReader stream 34 2) 2 (bitsPerSample audio)) in
        let audio :=
          if formatTag audio =? WAVE_FORMAT_PCM
          then set_length audio
                 (binary.Read_uint (SectionReader stream 40 4) 4 (length audio))
          else if formatTag audio =? WAVE_FORMAT_EXTENSIBLE
          then set_length audio
                 (binary.Read_uint (SectionReader stream 76 4) 4 (length audio))
          else audio in
        let buf :=
          if formatTag audio =? WAVE_FORMAT_PCM
          then SectionReader stream 44 (length audio)
          else if formatTag audio =? WAVE_FORMAT_EXTENSIBLE
          then SectionReader stream 80 (length audio)
          else [] in
        (Some (set_data audio buf), None)
  end.

Definition getChannelMask (c : Z) : Z :=
  if c =? 1 then 0x4
  else if c =? 2 then 0x3
  else if c =? 4 then 0x33
  else if c =? 6 then 0x3f
  else if c =? 8 then 0x63f
  else 0.

Definition guid : list byte :=
  [x01; x00; x00; x00; x00; x00; x10; x00; x80; x00; x00; xaa; x00; x38; x9b; x71].

(** [Marshal(v)]: the bytes written to the buffer, in the order of the code. *)
Definition Marshal (v : File) : outcome (list byte) :=
  let buf := ascii_bytes "RIFF" in
  buf <- (if formatTag v =? WAVE_FORMAT_PCM
          then Ok (buf ++ binary.put_le 4 (uint32 (length v + 36)))
          else if formatTag v =? WAVE_FORMAT_EXTENSIBLE
          then Ok (buf ++ binary.put_le 4 (uint32 (length v + 72)))
          else Error ErrInvalidFormatTag) ;;
  let buf := buf ++ ascii_bytes "WAVEfmt " in
  let buf := if formatTag v =? WAVE_FORMAT_PCM
             then buf ++ binary.put_le 4 16
             else buf ++ binary.put_le 4 40 in
  let buf := buf ++ binary.put_le 2 (formatTag v) in
  let buf := buf ++ binary.put_le 2 (channels v) in
  let buf := buf ++ binary.put_le 4 (samplesPerSec v) in
  let buf := buf ++ binary.put_le 4 (avgBytesPerSec v) in
  let buf := buf ++ binary.put_le 2 (blockAlign v) in
  let buf := buf ++ binary.put_le 2 (bitsPerSample v) in
  buf <- (if formatTag v =? WAVE_FORMAT_EXTENSIBLE
          then
            let buf := buf ++ binary.put_le 2 22 in
            let buf := buf ++ binary.put_le 2 (bitsPerSample v) in
            let buf := buf ++ binary.put_le 4 (uint32 (getChannelMask (channels v))) in
            let buf := buf ++ guid in
            let buf := buf ++ ascii_bytes "fact" in
            let buf := buf ++ binary.put_le 4 4 in
            frames <- go_div (length v) (blockAlign v) ;;
            Ok (buf ++ binary.put_le 4 (uint32 frames))
          else Ok buf) ;;
  let buf := buf ++ ascii_bytes "data" in
  let buf := buf ++ binary.put_le 4 (length v) in
  Ok (buf ++ data v).

(** ** The fixed-offset profile

    What a well-formed buffer of the profile holds at each offset, stated on
    the buffer alone.  [field s off w] is the [w] bytes at offset [off]. *)

Definition field (stream : list byte) (off w : nat) : list byte :=
  firstn w (skipn off stream).

Definition uint_at (stream : list byte) (off w : nat) : Z :=
  binary.le_uint (field stream off w).

(** PCM layout: a 44-byte header, then exactly the declared payload. *)
Definition well_formed_PCM (s : list byte) : Prop :=
  field s 0 4 = ascii_bytes "RIFF" /\
  uint_at s 4 4 = uint32 (uint_at s 40 4 + 36) /\
  field s 8 8 = ascii_bytes "WAVEfmt " /\
  uint_at s 16 4 = 16 /\
  uint_at s 20 2 = WAVE_FORMAT_PCM /\
  field s 36 4 = ascii_bytes "data" /\
  Z.of_nat (len s) = 44 + uint_at s 40 4.

(** EXTENSIBLE layout: an 80-byte header (format extension, sub-format GUID
    and [fact] chunk, then the [data] tag at 72 and the payload length at 76),
    then exactly the declared payload. *)
Definition well_formed_EXTENSIBLE (s : list byte) : Prop :=
  field s 0 4 = ascii_bytes "RIFF" /\
  uint_at s 4 4 = uint32 (uint_at s 76 4 + 72) /\
  field s 8 8 = ascii_bytes "WAVEfmt " /\
  uint_at s 16 4 = 40 /\
  uint_at s 20 2 = WAVE_FORMAT_EXTENSIBLE /\
  uint_at s 36 2 = 22 /\
  uint_at s 38 2 = uint_at s 34 2 /\
  uint_at s 40 4 = getChannelMask (uint_at s 22 2) /\
  field s 44 16 = guid /\
  field s 60 4 = ascii_bytes "fact" /\
  uint_at s 64 4 = 4 /\
  uint_at s 32 2 <> 0 /\
  uint_at s 68 4 = uint_at s 76 4 / uint_at s 32 2 /\
  field s 72 4 = ascii_bytes "data" /\
  Z.of_nat (len s) = 80 + uint_at s 76 4.

Definition well_formed (s : list byte) : Prop :=
  well_formed_PCM s \/ well_formed_EXTENSIBLE s.

(** ** Samples of the payload, read at their native depth *)

Definition byte_at (d : list byte) (i : nat) : Z := u8 (nth i d x00).

(** Signed value of a [bits]-bit two's complement pattern [u]. *)
Definition signed (bits : Z) (u : Z) : Z :=
  if u <? 2 ^ (bits - 1) then u else u - 2 ^ bits.

Definition sample8 (d : list byte) (i : nat) : Z :=
  signed 8 (byte_at d i).

Definition sample16 (d : list byte) (i : nat) : Z :=
  signed 16 (byte_at d (2 * i) + 2 ^ 8 * byte_at d (2 * i + 1)).

Definition sample32 (d : list byte) (i : nat) : Z :=
  signed 32 (byte_at d (4 * i) + 2 ^ 8 * byte_at d (4 * i + 1)
             + 2 ^ 16 * byte_at d (4 * i + 2) + 2 ^ 24 * byte_at d (4 * i + 3)).

(** The 24-bit sample widened to 32 bits: the fourth, high byte is [0xFF]
    when the top bit of the third byte is set, else [0x00]. *)
Definition sample24 (d : list byte) (i : nat) : Z :=
  let high := if Z.testbit (byte_at d (3 * i + 2)) 7 then 0xFF else 0x00 in
  signed 32 (byte_at d (3 * i) + 2 ^ 8 * byte_at d (3 * i + 1)
             + 2 ^ 16 * byte_at d (3 * i + 2) + 2 ^ 24 * high).

(** ** Concrete buffers and files used below *)

(** A buffer in the 44-byte layout with the given format tag, header fields,
    declared payload length and payload bytes, written out field by field. *)
Definition riff_stream (tag ch rate avg align bits declared : Z) (payload : list byte)
  : list byte :=
  ascii_bytes "RIFF" ++ binary.put_le 4 (declared + 36) ++
  ascii_bytes "WAVEfmt " ++ binary.put_le 4 16 ++
  binary.put_le 2 tag ++ binary.put_le 2 ch ++ binary.put_le 4 rate ++
  binary.put_le 4 avg ++ binary.put_le 2 align ++ binary.put_le 2 bits ++
  ascii_bytes "data" ++ binary.put_le 4 declared ++ payload.

(** 44.1 kHz, 16 bit, mono PCM with one sample, [0x0100]. *)
Definition pcm_stream : list byte :=
  riff_stream 1 1 44100 88200 2 16 2 [x00; x01].

(** The same header declaring four payload bytes, with the buffer ending
    right after the header. *)
Definition truncated_stream : list byte :=
  riff_stream 1 1 44100 88200 2 16 4 [].

(** A complete buffer whose header says 16 bit, one channel, block align 3. *)
Definition odd_align_stream : list byte :=
  riff_stream 1 1 44100 88200 3 16 2 [x00; x01].

(** A complete buffer whose header says 16 bit, one channel, block align 1. *)
Definition narrow_align_stream : list byte :=
  riff_stream 1 1 44100 88200 1 16 2 [x00; x01].

(** A buffer whose format tag is 2 (ADPCM). *)
Definition adpcm_stream : list byte :=
  riff_stream 2 1 44100 88200 2 16 2 [x00; x01].

(** The file [New(44100, 16, 2)] returns. *)
Definition cd_file : File := mkFile 1 2 44100 176400 4 16 0 [] 0.

(** A buffer in the 80-byte layout: format extension with [valid] valid bits
    and channel mask [mask], the PCM sub-format GUID, a [fact] chunk holding
    [frames], then the [data] chunk. *)
Definition riff_ext_stream (ch rate avg align bits valid mask frames declared : Z)
  (payload : list byte) : list byte :=
  ascii_bytes "RIFF" ++ binary.put_le 4 (declared + 72) ++
  ascii_bytes "WAVEfmt " ++ binary.put_le 4 40 ++
  binary.put_le 2 0xFFFE ++ binary.put_le 2 ch ++ binary.put_le 4 rate ++
  binary.put_le 4 avg ++ binary.put_le 2 align ++ binary.put_le 2 bits ++
  binary.put_le 2 22 ++ binary.put_le 2 valid ++ binary.put_le 4 mask ++ guid ++
  ascii_bytes "fact" ++ binary.put_le 4 4 ++ binary.put_le 4 frames ++
  ascii_bytes "data" ++ binary.put_le 4 declared ++ payload.

(** 96 kHz, 24 bit, one channel (front centre), two sample frames. *)
Definition ext_stream : list byte :=
  riff_ext_stream 1 96000 288000 3 24 24 0x4 2 6 [x01; x02; x03; xff; xfe; xfd].

(** The same audio with 20 valid bits in each 24-bit container. *)
Definition ext20_stream : list byte :=
  riff_ext_stream 1 96000 288000 3 24 20 0x4 2 6 [x01; x02; x03; xff; xfe; xfd].

(** 48 kHz, 16 bit, three channels (front left, right and centre: mask
    [0x7]), one sample frame. *)
Definition ext3_stream : list byte :=
  riff_ext_stream 3 48000 288000 6 16 16 0x7 1 6 [x01; x02; x03; xff; xfe; xfd].

(** The payload's playing time is [frames / samplesPerSec] seconds.  A
    duration [d] (in nanoseconds) is that time when
    [d * samplesPerSec = frames * Second]. *)
Definition is_playback_time (v : File) (d : Z) : Prop :=
  d * samplesPerSec v = (length v / blockAlign v) * Second.

(** The File [Unmarshal] leaves when given [truncated_stream]: it records
    four payload bytes and holds none. *)
Definition truncated_file : File := mkFile 1 1 44100 88200 2 16 4 [] 0.

(** The File of [New(44100, 24, 1)] after a [Write] of the sample 1 in
    three little-endian bytes. *)
Definition s24_file : File := mkFile 0xFFFE 1 44100 132300 3 24 3 [x01; x00; x00] 0.

(** A call that never returns a non-nil [error]. *)
Definition no_error {A : Type} (m : outcome A) : Prop := forall e, m <> Error e.

(** One second of 16-bit mono PCM at 44.1 kHz (the payload bytes do not
    matter to [Duration]). *)
Definition one_second_file : File := mkFile 1 1 44100 88200 2 16 88200 [] 0.

(** The File [Unmarshal] makes of [pcm_stream]: one 16-bit sample, [0x0100]. *)
Definition pcm_file : File := mkFile 1 1 44100 88200 2 16 2 [x00; x01] 0.

(** The File of [New(8000, 8, 1)] after a [Write] of the samples 1 and -1. *)
Definition s8_file : File := mkFile 1 1 8000 8000 1 8 2 [x01; xff] 0.

(** A run of [Read] calls, each into a fresh buffer [make([]byte, size)]:
    the file afterwards, the bytes delivered (the first [n] bytes of each
    buffer, in the order of the calls) and the error of each call. *)
Fixpoint Reads (v : File) (sizes : list nat)
  : outcome (File * list byte * list (option error)) :=
  match sizes with
  | [] => Ok (v, [], [])
  | size :: rest =>
      r <- Read v (repeat x00 size) ;;
      let '(v', p, n, err) := r in
      r' <- Reads v' rest ;;
      let '(v'', delivered, errs) := r' in
      Ok (v'', firstn (Z.to_nat n) p ++ delivered, err :: errs)
  end.

(** What the loop of [fromS24ToInt32s] makes of the first [t] samples of
    [l]: each 3-byte sample behind one zero byte. *)
Fixpoint widen24 (t : nat) (l : list byte) : list byte :=
  match t with
  | O => []
  | S k => x00 :: nth 0 l x00 :: nth 1 l x00 :: nth 2 l x00 :: widen24 k (skipn 3 l)
  end.

(** The two byte layouts [Marshal] writes, with every field a parameter. *)
Definition pcm_layout (size fmt tag ch rate avg align bits declared : Z)
  (payload : list byte) : list byte :=
  ascii_bytes "RIFF" ++ binary.put_le 4 size ++
  ascii_bytes "WAVEfmt " ++ binary.put_le 4 fmt ++
  binary.put_le 2 tag ++ binary.put_le 2 ch ++ binary.put_le 4 rate ++
  binary.put_le 4 avg ++ binary.put_le 2 align ++ binary.put_le 2 bits ++
  ascii_bytes "data" ++ binary.put_le 4 declared ++ payload.

Definition ext_layout (size fmt tag ch rate avg align bits cb valid mask frames
  declared : Z) (payload : list byte) : list byte :=
  ascii_bytes "RIFF" ++ binary.put_le 4 size ++
  ascii_bytes "WAVEfmt " ++ binary.put_le 4 fmt ++
  binary.put_le 2 tag ++ binary.put_le 2 ch ++ binary.put_le 4 rate ++
  binary.put_le 4 avg ++ binary.put_le 2 align ++ binary.put_le 2 bits ++
  binary.put_le 2 cb ++ binary.put_le 2 valid ++ binary.put_le 4 mask ++ guid ++
  ascii_bytes "fact" ++ binary.put_le 4 4 ++ binary.put_le 4 frames ++
  ascii_bytes "data" ++ binary.put_le 4 declared ++ payload.

(** The values of an [int32]. *)
Definition in_int32 (x : Z) : Prop := - 2 ^ 31 <= x < 2 ^ 31.

(** [float64(x) / (1 << 31)]. *)
Definition scaled_float64 (x : Z) : float64 := mkFloat64 x (-31).

(** A File with 12 bits per sample and three payload bytes. *)
Definition s12_file : File := mkFile 1 1 44100 66150 1 12 3 [x01; x02; x03] 0.

(** A 16-bit mono File that records four payload bytes and holds two. *)
Definition half_file : File := mkFile 1 1 44100 88200 2 16 4 [x00; x01] 0.

(** A 24-bit mono File whose four payload bytes are one sample and a
    stray byte. *)
Definition ragged_file : File :=
  mkFile 0xFFFE 1 44100 132300 3 24 4 [x01; x00; x00; x02] 0.

(** The number of bits set in a channel mask: the speakers it names. *)
Fixpoint speakers_pos (p : positive) : Z :=
  match p with
  | xH => 1
  | xO q => speakers_pos q
  | xI q => 1 + speakers_pos q
  end.

Definition speakers (mask : Z) : Z :=
  match mask with
  | Zpos p => speakers_pos p
  | _ => 0
  end.

(** The two layouts of the profile with the buffer allowed to end early:
    every header field as in [well_formed_PCM] and [well_formed_EXTENSIBLE],
    the whole header present, and no more payload than declared. *)
Definition cut_short_PCM (s : list byte) : Prop :=
  field s 0 4 = ascii_bytes "RIFF" /\
  uint_at s 4 4 = uint32 (uint_at s 40 4 + 36) /\
  field s 8 8 = ascii_bytes "WAVEfmt " /\
  uint_at s 16 4 = 16 /\
  uint_at s 20 2 = WAVE_FORMAT_PCM /\
  field s 36 4 = ascii_bytes "data" /\
  44 <= Z.of_nat (len s) <= 44 + uint_at s 40 4.

Definition cut_short_EXTENSIBLE (s : list byte) : Prop :=
  field s 0 4 = ascii_bytes "RIFF" /\
  uint_at s 4 4 = uint32 (uint_at s 76 4 + 72) /\
  field s 8 8 = ascii_bytes "WAVEfmt " /\
  uint_at s 16 4 = 40 /\
  uint_at s 20 2 = WAVE_FORMAT_EXTENSIBLE /\
  uint_at s 36 2 = 22 /\
  uint_at s 38 2 = uint_at s 34 2 /\
  uint_at s 40 4 = getChannelMask (uint_at s 22 2) /\
  field s 44 16 = guid /\
  field s 60 4 = ascii_bytes "fact" /\
  uint_at s 64 4 = 4 /\
  uint_at s 32 2 <> 0 /\
  uint_at s 68 4 = uint_at s 76 4 / uint_at s 32 2 /\
  field s 72 4 = ascii_bytes "data" /\
  80 <= Z.of_nat (len s) <= 80 + uint_at s 76 4.

(** * Properties *)

(** ** Arithmetic of bytes and little-endian fields *)

Lemma u8_range (b : byte) : 0 <= u8 b < 256.
Proof.
  unfold u8. pose proof (Byte.to_N_bounded b). lia.
Qed.

Lemma byte_of_u8 (b : byte) (k : Z) : byte_of (u8 b + 256 * k) = b.
Proof.
  unfold byte_of.
  replace ((u8 b + 256 * k) mod 256) with (u8 b)
    by (pose proof (u8_range b); lia).
  unfold u8. rewrite N2Z.id, Byte.of_to_N. reflexivity.
Qed.

Lemma u8_byte_of (z : Z) : u8 (byte_of z) = z mod 256.
Proof.
  unfold byte_of.
  destruct (Byte.of_N (Z.to_N (z mod 256))) as [b|] eqn:E.
  - apply Byte.to_of_N in E. unfold u8. rewrite E. lia.
  - apply Byte.of_N_None_iff in E. lia.
Qed.

Lemma le_uint_range (bs : list byte) : 0 <= binary.le_uint bs < 256 ^ Z.of_nat (len bs).
Proof.
  induction bs as [|b bs IH]; cbn [binary.le_uint List.length].
  - cbn. lia.
  - rewrite Nat2Z.inj_succ, Z.pow_succ_r by lia.
    pose proof (u8_range b). lia.
Qed.

Lemma put_le_le_uint (bs : list byte) : binary.put_le (len bs) (binary.le_uint bs) = bs.
Proof.
  induction bs as [|b bs IH]; cbn [binary.le_uint binary.put_le List.length].
  - reflexivity.
  - rewrite byte_of_u8. f_equal.
    replace ((u8 b + 256 * binary.le_uint bs) / 256) with (binary.le_uint bs)
      by (pose proof (u8_range b); lia).
    exact IH.
Qed.

Lemma put_le_length (w : nat) (z : Z) : len (binary.put_le w z) = w.
Proof.
  revert z. induction w as [|w IH]; intros z; cbn; [reflexivity | now rewrite IH].
Qed.

Lemma le_uint_put_le (w : nat) (z : Z) :
  binary.le_uint (binary.put_le w z) = z mod 256 ^ Z.of_nat w.
Proof.
  revert z. induction w as [|w IH]; intros z; cbn [binary.le_uint binary.put_le].
  - cbn. now rewrite Z.mod_1_r.
  - rewrite IH, u8_byte_of, Nat2Z.inj_succ, Z.pow_succ_r by lia.
    assert (0 < 256 ^ Z.of_nat w) by (apply Z.pow_pos_nonneg; lia).
    rewrite (Z.mul_comm 256), Z.rem_mul_r by lia. lia.
Qed.

(** ** Construction *)

Lemma New_cases (rate bits ch : Z) :
  (Z.rem bits 8 <> 0 /\ New rate bits ch = Error (ErrInvalidBitsPerSample bits)) \/
  (Z.rem bits 8 = 0 /\ exists f, New rate bits ch = Ok f /\
     formatTag f = (if bits >? 16 then WAVE_FORMAT_EXTENSIBLE else WAVE_FORMAT_PCM) /\
     channels f = uint16 ch /\ bitsPerSample f = uint16 bits /\
     samplesPerSec f = uint32 rate /\
     blockAlign f = Z.quot (uint16 (uint16 ch * uint16 bits)) 8 /\
     avgBytesPerSec f = uint32 (uint32 rate * uint32 (blockAlign f)) /\
     length f = 0 /\ data f = [] /\ offset f = 0).
Proof.
  unfold New. destruct (Z.rem bits 8 =? 0) eqn:E; cbn [negb].
  - right. split; [lia|]. eexists. split; [reflexivity|].
    destruct (bits >? 16); cbn; repeat split; reflexivity.
  - left. split; [lia | reflexivity].
Qed.

(** C5. [New(rate, bits, channels)] returns an error exactly when
    [bits % 8 != 0] and returns a File exactly when [bits % 8 == 0]; the File
    it returns has format tag PCM (0x1) when [bits <= 16] and EXTENSIBLE
    (0xFFFE) when [bits > 16]. *)
Theorem New_fails_iff_bits_not_multiple_of_8 (rate bits ch : Z) :
  ((exists e, New rate bits ch = Error e) <-> Z.rem bits 8 <> 0) /\
  ((exists f, New rate bits ch = Ok f) <-> Z.rem bits 8 = 0) /\
  (forall f, New rate bits ch = Ok f ->
     (bits <= 16 -> FormatTag f = WAVE_FORMAT_PCM) /\
     (bits > 16 -> FormatTag f = WAVE_FORMAT_EXTENSIBLE)).
Proof.
  destruct (New_cases rate bits ch) as [[Hr HN] | [Hr [f0 [HN [Ht _]]]]];
    rewrite HN.
  - split; [|split].
    + split; [intros _; exact Hr | intros _; eexists; reflexivity].
    + split; [intros [f Hf]; discriminate Hf | intros H; contradiction].
    + intros f Hf. discriminate Hf.
  - split; [|split].
    + split; [intros [e He]; discriminate He | intros H; contradiction].
    + split; [intros _; exact Hr | intros _; eexists; reflexivity].
    + intros f Hf. injection Hf as <-. unfold FormatTag. rewrite Ht.
      destruct (bits >? 16) eqn:E; split; intros; (reflexivity || lia).
Qed.

Lemma New_fails_iff_bits_not_multiple_of_8_witness :
  (exists e, New 44100 17 2 = Error e) /\
  (exists f, New 96000 24 1 = Ok f /\ FormatTag f = WAVE_FORMAT_EXTENSIBLE) /\
  (exists f, New 44100 16 2 = Ok f /\ FormatTag f = WAVE_FORMAT_PCM).
Proof.
  split; [|split].
  - apply (proj1 (New_fails_iff_bits_not_multiple_of_8 44100 17 2)). discriminate.
  - eexists. split; [reflexivity|].
    apply (proj2 (proj2 (New_fails_iff_bits_not_multiple_of_8 96000 24 1)) _ eq_refl).
    lia.
  - eexists. split; [reflexivity|].
    apply (proj2 (proj2 (New_fails_iff_bits_not_multiple_of_8 44100 16 2)) _ eq_refl).
    lia.
Defined.

(** C3, the claim as stated fails after decode: [Unmarshal] accepts a buffer
    whose header says one channel of 16 bits and block align 3, and stores
    the three values as they are. *)
Lemma Unmarshal_keeps_inconsistent_block_align :
  exists f, Unmarshal odd_align_stream (Some File_zero) = (Some f, None) /\
            blockAlign f = 3 /\ channels f * bitsPerSample f / 8 = 2.
Proof.
  eexists. split; [vm_compute; reflexivity | split; reflexivity].
Qed.

(** ** Decoding *)

Lemma field_length (s : list byte) (off w : nat) :
  (off + w <= len s)%nat -> len (field s off w) = w.
Proof.
  intros H. unfold field. rewrite length_firstn, length_skipn. lia.
Qed.

Lemma skipn_field (s : list byte) (off w : nat) :
  skipn off s = field s off w ++ skipn (off + w) s.
Proof.
  unfold field. rewrite (Nat.add_comm off w), <- skipn_skipn.
  symmetry. apply firstn_skipn.
Qed.

Lemma put_le_uint_at (s : list byte) (off w : nat) :
  (off + w <= len s)%nat -> binary.put_le w (uint_at s off w) = field s off w.
Proof.
  intros H. unfold uint_at.
  pose proof (put_le_le_uint (field s off w)) as P.
  rewrite field_length in P by exact H. exact P.
Qed.

Lemma uint_at_range (s : list byte) (off w : nat) :
  (off + w <= len s)%nat -> 0 <= uint_at s off w < 256 ^ Z.of_nat w.
Proof.
  intros H. unfold uint_at.
  pose proof (le_uint_range (field s off w)) as P.
  rewrite field_length in P by exact H. exact P.
Qed.

Lemma uint_at_4_range (s : list byte) (off : nat) :
  (off + 4 <= len s)%nat -> 0 <= uint_at s off 4 < 2 ^ 32.
Proof.
  intros H. exact (uint_at_range s off 4 H).
Qed.

Lemma uint_at_2_range (s : list byte) (off : nat) :
  (off + 2 <= len s)%nat -> 0 <= uint_at s off 2 < 2 ^ 16.
Proof.
  intros H. exact (uint_at_range s off 2 H).
Qed.

Lemma uint32_small (z : Z) : 0 <= z < 2 ^ 32 -> uint32 z = z.
Proof.
  intros H. unfold uint32. apply Z.mod_small. exact H.
Qed.

(** A [binary.Read] of a window that lies inside the stream stores the
    field's value; one of a window the stream does not cover stores nothing. *)
Lemma Read_uint_inside (s : list byte) (off n : Z) (w : nat) (old : Z) :
  n = Z.of_nat w -> 0 <= off -> (Z.to_nat off + w <= len s)%nat ->
  binary.Read_uint (SectionReader s off n) w old = uint_at s (Z.to_nat off) w.
Proof.
  intros -> Hoff H. unfold binary.Read_uint, SectionReader, uint_at.
  rewrite Nat2Z.id. fold (field s (Z.to_nat off) w).
  rewrite field_length by exact H. rewrite Nat.ltb_irrefl.
  f_equal. apply firstn_all2. rewrite field_length by exact H. lia.
Qed.

Lemma Read_uint_outside (s : list byte) (off n : Z) (w : nat) (old : Z) :
  n = Z.of_nat w -> (0 < w)%nat -> (len s < Z.to_nat off + w)%nat ->
  binary.Read_uint (SectionReader s off n) w old = old.
Proof.
  intros -> Hw H. unfold binary.Read_uint, SectionReader.
  rewrite Nat2Z.id, length_firstn, length_skipn.
  destruct (Nat.ltb_spec (Nat.min w (len s - Z.to_nat off)) w) as [|Hmin];
    [reflexivity|].
  apply Nat.min_glb_r in Hmin. lia.
Qed.

Ltac read_fields :=
  repeat (rewrite Read_uint_inside by (reflexivity || lia || (cbn; lia)));
  repeat match goal with
         | |- context [Z.to_nat (Zpos ?p)] =>
             let n := eval vm_compute in (Z.to_nat (Zpos p)) in
             change (Z.to_nat (Zpos p)) with n
         end;
  cbn [formatTag channels samplesPerSec avgBytesPerSec blockAlign bitsPerSample
       length data offset set_formatTag set_channels set_samplesPerSec
       set_avgBytesPerSec set_blockAlign set_bitsPerSample set_length set_data
       set_offset].

(** The header fields after a decode of a buffer that holds the whole
    36-byte format header. *)
Lemma Unmarshal_header (s : list byte) (audio f : File) :
  (36 <= len s)%nat ->
  Unmarshal s (Some audio) = (Some f, None) ->
  formatTag f = uint_at s 20 2 /\ channels f = uint_at s 22 2 /\
  samplesPerSec f = uint_at s 24 4 /\ avgBytesPerSec f = uint_at s 28 4 /\
  blockAlign f = uint_at s 32 2 /\ bitsPerSample f = uint_at s 34 2.
Proof.
  intros Hlen. unfold Unmarshal. read_fields.
  destruct (uint_at s 20 2 =? WAVE_FORMAT_PCM);
    [| destruct (uint_at s 20 2 =? WAVE_FORMAT_EXTENSIBLE)];
    cbn [negb orb]; try discriminate;
    intros H; injection H as <-; repeat split; reflexivity.
Qed.

(** C3 (amended). After a successful [New] the two derived fields satisfy
    [blockAlign = channels * bitsPerSample / 8] and
    [avgBytesPerSec = samplesPerSec * blockAlign] in the unsigned 16-bit and
    32-bit arithmetic of the fields, hence exactly whenever the products fit;
    after a successful [Unmarshal] of a buffer holding the 36-byte format
    header the five fields are the values stored in the buffer at offsets 22
    to 35, whatever they are. *)
Theorem derived_fields_after_New_and_Unmarshal :
  (forall rate bits ch f, New rate bits ch = Ok f ->
     blockAlign f = uint16 (channels f * bitsPerSample f) / 8 /\
     avgBytesPerSec f = uint32 (samplesPerSec f * blockAlign f) /\
     (channels f * bitsPerSample f < 2 ^ 16 ->
      blockAlign f = channels f * bitsPerSample f / 8) /\
     (samplesPerSec f * blockAlign f < 2 ^ 32 ->
      avgBytesPerSec f = samplesPerSec f * blockAlign f)) /\
  (forall s audio f, (36 <= len s)%nat ->
     Unmarshal s (Some audio) = (Some f, None) ->
     channels f = uint_at s 22 2 /\ samplesPerSec f = uint_at s 24 4 /\
     avgBytesPerSec f = uint_at s 28 4 /\ blockAlign f = uint_at s 32 2 /\
     bitsPerSample f = uint_at s 34 2).
Proof.
  split.
  - intros rate bits ch f HN.
    destruct (New_cases rate bits ch) as [[_ HE] | [_ [f' [HO H]]]];
      rewrite HN in *; [discriminate|].
    injection HO as <-.
    destruct H as (_ & Hc & Hb & Hs & Hba & Havg & _).
    rewrite <- Hc, <- Hb in Hba. rewrite <- Hs in Havg.
    assert (Hcr : 0 <= channels f < 2 ^ 16) by (rewrite Hc; unfold uint16; lia).
    assert (Hbr : 0 <= bitsPerSample f < 2 ^ 16) by (rewrite Hb; unfold uint16; lia).
    assert (Hsr : 0 <= samplesPerSec f < 2 ^ 32) by (rewrite Hs; unfold uint32; lia).
    assert (Hq : blockAlign f = uint16 (channels f * bitsPerSample f) / 8).
    { rewrite Hba. unfold uint16.
      apply Z.quot_div_nonneg; lia. }
    assert (Hbar : 0 <= blockAlign f < 2 ^ 16)
      by (rewrite Hq; unfold uint16; lia).
    assert (Ha : avgBytesPerSec f = uint32 (samplesPerSec f * blockAlign f)).
    { rewrite Havg. unfold uint32 at 2. rewrite (Z.mod_small (blockAlign f)) by lia.
      reflexivity. }
    repeat split.
    + exact Hq.
    + exact Ha.
    + intros Hfit. rewrite Hq. unfold uint16. rewrite Z.mod_small by lia. reflexivity.
    + intros Hfit. rewrite Ha. unfold uint32. rewrite Z.mod_small by lia. reflexivity.
  - intros s audio f Hlen HU.
    destruct (Unmarshal_header s audio f Hlen HU) as (_ & H). exact H.
Qed.

Lemma derived_fields_after_New_and_Unmarshal_witness :
  (blockAlign cd_file = 2 * 16 / 8 /\ avgBytesPerSec cd_file = 44100 * 4) /\
  (exists f, Unmarshal odd_align_stream (Some File_zero) = (Some f, None) /\
             blockAlign f = uint_at odd_align_stream 32 2).
Proof.
  split.
  - pose proof (proj1 derived_fields_after_New_and_Unmarshal 44100 16 2 cd_file eq_refl)
      as (_ & _ & Hb & Ha).
    split; [apply Hb | apply Ha]; vm_compute; reflexivity.
  - eexists. split; [vm_compute; reflexivity|].
    refine (proj1 (proj2 (proj2 (proj2
      (proj2 derived_fields_after_New_and_Unmarshal odd_align_stream File_zero _ _ _))))).
    + vm_compute. lia.
    + vm_compute. reflexivity.
Defined.

(** C8, the claim as stated fails: decoding a buffer with format tag 2 into
    the file of [New(44100, 16, 2)], whose tag is 1, returns the error and
    leaves the destination with tag 2. *)
Lemma Unmarshal_overwrites_format_tag :
  exists dst', Unmarshal adpcm_stream (Some cd_file)
               = (Some dst', Some (ErrUnsupportedFormatTag 2)) /\
               formatTag cd_file = 1 /\ formatTag dst' = 2.
Proof.
  eexists. split; [vm_compute; reflexivity | split; reflexivity].
Qed.

(** C8 (amended). For every destination File and every buffer whose format
    tag field (2 bytes at offset 20) holds a value [t] that is neither 0x0001
    nor 0xFFFE, [Unmarshal] returns the unsupported-format-tag error for [t];
    the destination's format tag is then [t], and each of its other fields
    keeps the value it had before the call. *)
Theorem Unmarshal_unsupported_format_tag (s : list byte) (audio : File) :
  (22 <= len s)%nat ->
  uint_at s 20 2 <> WAVE_FORMAT_PCM ->
  uint_at s 20 2 <> WAVE_FORMAT_EXTENSIBLE ->
  Unmarshal s (Some audio)
  = (Some (mkFile (uint_at s 20 2) (channels audio) (samplesPerSec audio)
                  (avgBytesPerSec audio) (blockAlign audio) (bitsPerSample audio)
                  (length audio) (data audio) (offset audio)),
     Some (ErrUnsupportedFormatTag (uint_at s 20 2))).
Proof.
  intros Hlen Hp He. unfold Unmarshal. read_fields.
  destruct (Z.eqb_spec (uint_at s 20 2) WAVE_FORMAT_PCM); [contradiction|].
  destruct (Z.eqb_spec (uint_at s 20 2) WAVE_FORMAT_EXTENSIBLE); [contradiction|].
  reflexivity.
Qed.

Lemma Unmarshal_unsupported_format_tag_witness :
  Unmarshal adpcm_stream (Some cd_file)
  = (Some (mkFile 2 2 44100 176400 4 16 0 [] 0), Some (ErrUnsupportedFormatTag 2)).
Proof.
  refine (Unmarshal_unsupported_format_tag adpcm_stream cd_file _ _ _).
  - vm_compute. lia.
  - vm_compute. discriminate.
  - vm_compute. discriminate.
Defined.

(** ** The length of the payload *)

(** C4, at the failing input: a buffer that declares four payload bytes and
    ends right after its 44-byte header decodes without error into a File
    whose [Length()] is 4 and whose [Bytes()] is empty. *)
Theorem Unmarshal_truncated_length_exceeds_data :
  exists f, Unmarshal truncated_stream (Some File_zero) = (Some f, None) /\
            Length f = 4 /\ len (Bytes f) = 0%nat.
Proof.
  eexists. split; [vm_compute; reflexivity | split; reflexivity].
Qed.

(** The invariant holds after [New]. *)
Lemma New_length_is_data_length (rate bits ch : Z) (f : File) :
  New rate bits ch = Ok f -> length f = Z.of_nat (len (data f)).
Proof.
  intros HN.
  destruct (New_cases rate bits ch) as [[_ HE] | [_ [f' [HO H]]]];
    rewrite HN in *; [discriminate|].
  injection HO as <-. destruct H as (_ & _ & _ & _ & _ & _ & Hl & Hd & _).
  rewrite Hl, Hd. reflexivity.
Qed.

Lemma Write_appends (d b : list byte) :
  fold_left (fun d x => d ++ [x]) b d = d ++ b.
Proof.
  revert d. induction b as [|x b IH]; intros d; cbn [fold_left].
  - now rewrite app_nil_r.
  - rewrite IH, <- app_assoc. reflexivity.
Qed.

(** X4. [Write] keeps the invariant as long as the payload stays below 4 GiB,
    and reports the number of bytes it was given. *)
Lemma Write_length_is_data_length (v : File) (b : list byte) :
  length v = Z.of_nat (len (data v)) ->
  Z.of_nat (len (data v)) + Z.of_nat (len b) < 2 ^ 32 ->
  exists v', Write v b = (v', Z.of_nat (len b), None) /\
             data v' = data v ++ b /\
             length v' = length v + Z.of_nat (len b) /\
             length v' = Z.of_nat (len (data v')).
Proof.
  intros Hinv Hfit. unfold Write. eexists. split; [reflexivity|].
  cbn [data length set_data set_length]. rewrite Write_appends.
  assert (Hl : uint32 (length v + uint32 (Z.of_nat (len b)))
               = length v + Z.of_nat (len b)).
  { unfold uint32. rewrite (Z.mod_small (Z.of_nat (len b))) by lia.
    apply Z.mod_small. lia. }
  rewrite Hl. repeat split. rewrite length_app. lia.
Qed.

(** [Unmarshal] of a PCM buffer that holds the whole declared payload. *)
Lemma Unmarshal_PCM_complete (s : list byte) (audio : File) :
  uint_at s 20 2 = WAVE_FORMAT_PCM ->
  44 + uint_at s 40 4 <= Z.of_nat (len s) ->
  Unmarshal s (Some audio)
  = (Some (mkFile WAVE_FORMAT_PCM (uint_at s 22 2) (uint_at s 24 4) (uint_at s 28 4)
                  (uint_at s 32 2) (uint_at s 34 2) (uint_at s 40 4)
                  (field s 44 (Z.to_nat (uint_at s 40 4))) (offset audio)),
     None).
Proof.
  intros Htag Hlen.
  assert (H44 : (44 <= len s)%nat).
  { pose proof (le_uint_range (field s 40 4)). unfold uint_at in Hlen. lia. }
  unfold Unmarshal. read_fields. rewrite Htag.
  change (WAVE_FORMAT_PCM =? WAVE_FORMAT_PCM) with true. cbn [negb orb].
  read_fields. reflexivity.
Qed.

(** [Unmarshal] of an EXTENSIBLE buffer that holds the whole declared payload. *)
Lemma Unmarshal_EXTENSIBLE_complete (s : list byte) (audio : File) :
  uint_at s 20 2 = WAVE_FORMAT_EXTENSIBLE ->
  80 + uint_at s 76 4 <= Z.of_nat (len s) ->
  Unmarshal s (Some audio)
  = (Some (mkFile WAVE_FORMAT_EXTENSIBLE (uint_at s 22 2) (uint_at s 24 4)
                  (uint_at s 28 4) (uint_at s 32 2) (uint_at s 34 2) (uint_at s 76 4)
                  (field s 80 (Z.to_nat (uint_at s 76 4))) (offset audio)),
     None).
Proof.
  intros Htag Hlen.
  assert (H80 : (80 <= len s)%nat).
  { pose proof (le_uint_range (field s 76 4)). unfold uint_at in Hlen. lia. }
  unfold Unmarshal. read_fields. rewrite Htag.
  change (WAVE_FORMAT_EXTENSIBLE =? WAVE_FORMAT_PCM) with false.
  change (WAVE_FORMAT_EXTENSIBLE =? WAVE_FORMAT_EXTENSIBLE) with true.
  cbn [negb orb]. read_fields. reflexivity.
Qed.

(** After a decode of a buffer that holds the whole declared payload the
    invariant holds. *)
Lemma Unmarshal_complete_length_is_data_length (s : list byte) (audio f : File) :
  (uint_at s 20 2 = WAVE_FORMAT_PCM /\ 44 + uint_at s 40 4 <= Z.of_nat (len s)) \/
  (uint_at s 20 2 = WAVE_FORMAT_EXTENSIBLE /\ 80 + uint_at s 76 4 <= Z.of_nat (len s)) ->
  Unmarshal s (Some audio) = (Some f, None) ->
  length f = Z.of_nat (len (data f)).
Proof.
  intros [[Htag Hlen] | [Htag Hlen]] HU.
  - rewrite (Unmarshal_PCM_complete s audio Htag Hlen) in HU.
    injection HU as <-. cbn [length data].
    pose proof (le_uint_range (field s 40 4)). unfold uint_at in *.
    rewrite field_length; lia.
  - rewrite (Unmarshal_EXTENSIBLE_complete s audio Htag Hlen) in HU.
    injection HU as <-. cbn [length data].
    pose proof (le_uint_range (field s 76 4)). unfold uint_at in *.
    rewrite field_length; lia.
Qed.

(** ** Encoding *)

Lemma Marshal_PCM (v : File) :
  formatTag v = WAVE_FORMAT_PCM ->
  Marshal v
  = Ok (ascii_bytes "RIFF" ++ binary.put_le 4 (uint32 (length v + 36)) ++
        ascii_bytes "WAVEfmt " ++ binary.put_le 4 16 ++
        binary.put_le 2 (formatTag v) ++ binary.put_le 2 (channels v) ++
        binary.put_le 4 (samplesPerSec v) ++ binary.put_le 4 (avgBytesPerSec v) ++
        binary.put_le 2 (blockAlign v) ++ binary.put_le 2 (bitsPerSample v) ++
        ascii_bytes "data" ++ binary.put_le 4 (length v) ++ data v).
Proof.
  intros Htag. unfold Marshal. rewrite Htag.
  change (WAVE_FORMAT_PCM =? WAVE_FORMAT_PCM) with true.
  change (WAVE_FORMAT_PCM =? WAVE_FORMAT_EXTENSIBLE) with false.
  cbn [bind]. rewrite <- !app_assoc. reflexivity.
Qed.

Lemma Marshal_EXTENSIBLE (v : File) :
  formatTag v = WAVE_FORMAT_EXTENSIBLE ->
  blockAlign v <> 0 ->
  Marshal v
  = Ok (ascii_bytes "RIFF" ++ binary.put_le 4 (uint32 (length v + 72)) ++
        ascii_bytes "WAVEfmt " ++ binary.put_le 4 40 ++
        binary.put_le 2 (formatTag v) ++ binary.put_le 2 (channels v) ++
        binary.put_le 4 (samplesPerSec v) ++ binary.put_le 4 (avgBytesPerSec v) ++
        binary.put_le 2 (blockAlign v) ++ binary.put_le 2 (bitsPerSample v) ++
        binary.put_le 2 22 ++ binary.put_le 2 (bitsPerSample v) ++
        binary.put_le 4 (uint32 (getChannelMask (channels v))) ++ guid ++
        ascii_bytes "fact" ++ binary.put_le 4 4 ++
        binary.put_le 4 (uint32 (Z.quot (length v) (blockAlign v))) ++
        ascii_bytes "data" ++ binary.put_le 4 (length v) ++ data v).
Proof.
  intros Htag Hba. unfold Marshal, go_div. rewrite Htag.
  change (WAVE_FORMAT_EXTENSIBLE =? WAVE_FORMAT_PCM) with false.
  change (WAVE_FORMAT_EXTENSIBLE =? WAVE_FORMAT_EXTENSIBLE) with true.
  destruct (Z.eqb_spec (blockAlign v) 0); [contradiction|].
  cbn [bind]. rewrite <- !app_assoc. reflexivity.
Qed.

(** A zero block align makes the frame count of the [fact] chunk a division
    by zero. *)
Lemma Marshal_EXTENSIBLE_zero_block_align (v : File) :
  formatTag v = WAVE_FORMAT_EXTENSIBLE -> blockAlign v = 0 ->
  Marshal v = Panic DivideByZero.
Proof.
  intros Htag Hba. unfold Marshal, go_div. rewrite Htag, Hba. reflexivity.
Qed.

Lemma getChannelMask_range (c : Z) : 0 <= getChannelMask c < 2 ^ 32.
Proof.
  unfold getChannelMask.
  repeat match goal with |- context [if ?b then _ else _] => destruct b end; lia.
Qed.

(** A buffer is the concatenation of its fields: [peel s off w] takes the
    field at [off] off both sides of [skipn off s = field s off w ++ _]. *)
Ltac peel s off w :=
  let o := eval vm_compute in (Z.to_nat off) in
  let k := eval vm_compute in (Z.to_nat w) in
  rewrite (skipn_field s o k); cbn [Nat.add]; apply (f_equal (app (field s o k))).

(** C1, the claim as stated fails for the EXTENSIBLE layout: [Unmarshal]
    keeps neither the valid-bits field nor the channel mask, and [Marshal]
    writes [bitsPerSample] and the mask derived from the channel count in
    their place.  A buffer with 20 valid bits per 24-bit sample comes back
    with 24, one with three channels and mask [0x7] comes back with mask 0. *)
Lemma Marshal_Unmarshal_rewrites_valid_bits_and_mask :
  (exists f out, Unmarshal ext20_stream (Some File_zero) = (Some f, None) /\
                 Marshal f = Ok out /\ out <> ext20_stream /\
                 uint_at ext20_stream 38 2 = 20 /\ uint_at out 38 2 = 24) /\
  (exists f out, Unmarshal ext3_stream (Some File_zero) = (Some f, None) /\
                 Marshal f = Ok out /\ out <> ext3_stream /\
                 uint_at ext3_stream 40 4 = 0x7 /\ uint_at out 40 4 = 0).
Proof.
  split; do 2 eexists;
    (split; [vm_compute; reflexivity|]);
    (split; [vm_compute; reflexivity|]);
    (split; [vm_compute; discriminate|]);
    split; vm_compute; reflexivity.
Qed.

(** C1 (amended). For every buffer that is well formed for the fixed-offset
    profile, in the PCM layout or in the EXTENSIBLE layout with the valid
    bits equal to the bit depth, the channel mask derived from the channel
    count and the frame count [length / blockAlign] in the [fact] chunk, and
    for every destination File, [Unmarshal] succeeds and [Marshal] of the
    decoded File returns the original buffer, byte for byte. *)
Theorem Marshal_Unmarshal_roundtrip (s : list byte) (audio : File) :
  well_formed s ->
  exists f, Unmarshal s (Some audio) = (Some f, None) /\ Marshal f = Ok s.
Proof.
  intros [H | H].
  - destruct H as (Hriff & Hsize & Hwave & Hfmt & Htag & Hdata & Hlen).
    assert (HL : 0 <= uint_at s 40 4) by (unfold uint_at; apply le_uint_range).
    assert (H44 : (44 <= len s)%nat) by lia.
    eexists. split; [apply Unmarshal_PCM_complete; [exact Htag | lia]|].
    rewrite Marshal_PCM by reflexivity.
    cbn [formatTag channels samplesPerSec avgBytesPerSec blockAlign bitsPerSample
         length data].
    f_equal.
    rewrite <- Hsize, <- Hfmt, <- Htag, <- Hriff, <- Hwave, <- Hdata.
    rewrite !put_le_uint_at by lia.
    assert (Hpay : field s 44 (Z.to_nat (uint_at s 40 4)) = skipn 44 s).
    { unfold field. apply firstn_all2. rewrite length_skipn. lia. }
    rewrite Hpay.
    symmetry. change s with (skipn 0 s) at 1.
    peel s 0 4. peel s 4 4. peel s 8 8. peel s 16 4. peel s 20 2. peel s 22 2.
    peel s 24 4. peel s 28 4. peel s 32 2. peel s 34 2. peel s 36 4. peel s 40 4.
    reflexivity.
  - destruct H as (Hriff & Hsize & Hwave & Hfmt & Htag & Hcb & Hvalid & Hmask &
                   Hguid & Hfact & Hfsize & Hba & Hframes & Hdata & Hlen).
    assert (HL : 0 <= uint_at s 76 4) by (unfold uint_at; apply le_uint_range).
    assert (H80 : (80 <= len s)%nat) by lia.
    eexists. split; [apply Unmarshal_EXTENSIBLE_complete; [exact Htag | lia]|].
    rewrite Marshal_EXTENSIBLE by (cbn [formatTag blockAlign]; auto).
    cbn [formatTag channels samplesPerSec avgBytesPerSec blockAlign bitsPerSample
         length data].
    f_equal.
    assert (Hb0 : 0 <= uint_at s 32 2) by (unfold uint_at; apply le_uint_range).
    rewrite Z.quot_div_nonneg by lia.
    rewrite <- Hframes, <- Hmask.
    rewrite (uint32_small (uint_at s 68 4)) by (apply uint_at_4_range; lia).
    rewrite (uint32_small (uint_at s 40 4)) by (apply uint_at_4_range; lia).
    rewrite <- Hsize, <- Hfmt, <- Htag, <- Hriff, <- Hwave, <- Hdata, <- Hcb,
      <- Hguid, <- Hfact, <- Hfsize.
    rewrite <- Hvalid at 2.
    rewrite !put_le_uint_at by lia.
    assert (Hpay : field s 80 (Z.to_nat (uint_at s 76 4)) = skipn 80 s).
    { unfold field. apply firstn_all2. rewrite length_skipn. lia. }
    rewrite Hpay.
    symmetry. change s with (skipn 0 s) at 1.
    peel s 0 4. peel s 4 4. peel s 8 8. peel s 16 4. peel s 20 2. peel s 22 2.
    peel s 24 4. peel s 28 4. peel s 32 2. peel s 34 2. peel s 36 2. peel s 38 2.
    peel s 40 4. peel s 44 16. peel s 60 4. peel s 64 4. peel s 68 4. peel s 72 4.
    peel s 76 4.
    reflexivity.
Qed.

Lemma pcm_stream_well_formed : well_formed pcm_stream.
Proof.
  left. unfold well_formed_PCM. repeat split; vm_compute; reflexivity.
Qed.

Lemma ext_stream_well_formed : well_formed ext_stream.
Proof.
  right. unfold well_formed_EXTENSIBLE.
  repeat split; vm_compute; (reflexivity || discriminate).
Qed.

Lemma Marshal_Unmarshal_roundtrip_witness :
  well_formed ext_stream /\
  exists f, Unmarshal ext_stream (Some File_zero) = (Some f, None) /\
            Marshal f = Ok ext_stream.
Proof.
  split; [exact ext_stream_well_formed|].
  exact (Marshal_Unmarshal_roundtrip ext_stream File_zero ext_stream_well_formed).
Defined.

(** ** Sequential reading *)

(** C7, at the failing input: the File decoded from the truncated buffer
    records four payload bytes and holds none, and its first [Read] into a
    one-byte buffer panics with an index out of range; it returns no byte and
    no [io.EOF]. *)
Theorem Read_after_truncated_decode_panics :
  Unmarshal truncated_stream (Some File_zero) = (Some truncated_file, None) /\
  Read truncated_file [x00] = Panic IndexOutOfRange.
Proof.
  split; vm_compute; reflexivity.
Qed.

Lemma skipn_cons_nth (d : list byte) (k : nat) :
  (k < len d)%nat -> skipn k d = nth k d x00 :: skipn (S k) d.
Proof.
  revert k. induction d as [|b d IH]; intros k H; cbn [List.length] in H; [lia|].
  destruct k as [|k]; [reflexivity|].
  cbn [skipn nth]. apply IH. lia.
Qed.

Lemma load_inside (d : list byte) (k : nat) :
  (k < len d)%nat -> load d (Z.of_nat k) = Ok (nth k d x00).
Proof.
  intros H. unfold load.
  destruct (Z.ltb_spec (Z.of_nat k) 0); [lia|].
  rewrite Nat2Z.id, (nth_error_nth' d x00 H). reflexivity.
Qed.

(** One [Read] when [data] holds at least [length] bytes: it delivers the
    next [n] bytes of [data], [n] being the smaller of the room in [p] and
    the bytes left before [length], and returns [io.EOF] exactly when [p] has
    more room than that. *)
Lemma Read_loop_spec (d : list byte) (length : Z) (p : list byte) (o : nat) :
  length <= Z.of_nat (len d) ->
  let avail := Z.to_nat (length - Z.of_nat o) in
  let n := Nat.min (len p) avail in
  Read_loop d length p (Z.of_nat o)
  = Ok (firstn n (skipn o d) ++ skipn n p, Z.of_nat n, Z.of_nat (o + n),
        if (len p <=? avail)%nat then None else Some EOF).
Proof.
  intros Hd. revert o. induction p as [|x p IH]; intros o; cbn zeta.
  - cbn [Read_loop List.length Nat.min firstn skipn app Nat.leb].
    rewrite Nat.add_0_r. reflexivity.
  - cbn [Read_loop List.length].
    destruct (Z.geb_spec (Z.of_nat o) length) as [Hge | Hlt].
    + replace (Z.to_nat (length - Z.of_nat o)) with 0%nat by lia.
      rewrite Nat.min_0_r, Nat.add_0_r. reflexivity.
    + rewrite load_inside by lia. cbn [bind].
      replace (Z.of_nat o + 1) with (Z.of_nat (S o)) by lia.
      rewrite IH. cbn [bind].
      destruct (Z.to_nat (length - Z.of_nat o)) as [|a] eqn:Ea; [lia|].
      replace (Z.to_nat (length - Z.of_nat (S o))) with a by lia.
      cbn [Nat.min Nat.leb firstn skipn app].
      rewrite (skipn_cons_nth d o) by lia. cbn [firstn app].
      replace (Z.of_nat (Nat.min (len p) a) + 1)
        with (Z.of_nat (S (Nat.min (len p) a))) by lia.
      replace (S o + Nat.min (len p) a)%nat
        with (o + S (Nat.min (len p) a))%nat by lia.
      reflexivity.
Qed.

Lemma Read_spec (v : File) (p : list byte) (o : nat) :
  offset v = Z.of_nat o ->
  length v <= Z.of_nat (len (data v)) ->
  let avail := Z.to_nat (length v - Z.of_nat o) in
  let n := Nat.min (len p) avail in
  Read v p
  = Ok (set_offset v (Z.of_nat (o + n)),
        firstn n (skipn o (data v)) ++ skipn n p, Z.of_nat n,
        if (len p <=? avail)%nat then None else Some EOF).
Proof.
  intros Ho Hd. cbn zeta. unfold Read, Length. rewrite Ho.
  rewrite Read_loop_spec by exact Hd. reflexivity.
Qed.

Lemma firstn_add (l : list byte) (a b : nat) :
  firstn (a + b) l = firstn a l ++ firstn b (skipn a l).
Proof.
  revert l. induction a as [|a IH]; intros l; [reflexivity|].
  destruct l as [|x l]; cbn [Nat.add firstn skipn app].
  - now rewrite firstn_nil.
  - now rewrite IH.
Qed.

(** X8. Any run of [Read] calls on a File whose data holds at least [length]
    bytes: the bytes delivered are the bytes of [data] from the starting
    offset on, in their order, up to [length]; and some call returns
    [io.EOF] exactly when the calls ask for more bytes than were left, by
    which time all of them have been delivered. *)
Lemma Reads_spec (sizes : list nat) (v : File) (o : nat) :
  offset v = Z.of_nat o ->
  Z.of_nat o <= length v <= Z.of_nat (len (data v)) ->
  let avail := Z.to_nat (length v - Z.of_nat o) in
  let total := list_sum sizes in
  exists v' errs,
    Reads v sizes
    = Ok (v', firstn (Nat.min total avail) (skipn o (data v)), errs) /\
    offset v' = Z.of_nat (o + Nat.min total avail) /\
    (In (Some EOF) errs <-> (avail < total)%nat).
Proof.
  revert v o. induction sizes as [|size sizes IH]; intros v o Ho Hd; cbn zeta.
  - exists v, []. change (list_sum []) with 0%nat.
    cbn [Reads Nat.min firstn In].
    rewrite Nat.add_0_r. repeat split; [exact Ho | contradiction | lia].
  - change (list_sum (size :: sizes)) with (size + list_sum sizes)%nat.
    cbn [Reads].
    rewrite (Read_spec v (repeat x00 size) o Ho) by lia. cbn [bind].
    rewrite repeat_length.
    set (avail := Z.to_nat (length v - Z.of_nat o)).
    set (n := Nat.min size avail).
    destruct (IH (set_offset v (Z.of_nat (o + n))) (o + n)%nat eq_refl)
      as (v' & errs & HR & Hoff & HEOF).
    { cbn [length data set_offset]. lia. }
    cbn [length data set_offset] in HR, Hoff, HEOF.
    rewrite HR. cbn [bind].
    exists v'. eexists. split; [|split].
    + rewrite Nat2Z.id. do 2 f_equal.
      rewrite firstn_app, firstn_firstn, length_firstn, length_skipn.
      replace (Nat.min n n) with n by lia.
      replace (n - Nat.min n (len (data v) - o))%nat with 0%nat by lia.
      cbn [firstn]. rewrite app_nil_r.
      replace (Nat.min (size + list_sum sizes) avail)
        with (n + Nat.min (list_sum sizes)
                    (Z.to_nat (length v - Z.of_nat (o + n))))%nat by lia.
      rewrite firstn_add, skipn_skipn, (Nat.add_comm n o). reflexivity.
    + rewrite Hoff. f_equal. lia.
    + cbn [In]. destruct (Nat.leb_spec size avail) as [Hle | Hgt].
      * rewrite HEOF. split; [intros [H | H]; [discriminate | lia] | intros H; right; lia].
      * split; [lia | intros _; left; reflexivity].
Qed.

(** ** Sample conversion never returns an error *)

Lemma no_error_bind {A B : Type} (m : outcome A) (k : A -> outcome B) :
  no_error m -> (forall a, no_error (k a)) -> no_error (bind m k).
Proof.
  intros Hm Hk e. destruct m as [a | e' | p]; cbn [bind].
  - apply Hk.
  - intros _. exact (Hm e' eq_refl).
  - discriminate.
Qed.

Lemma no_error_Ok {A : Type} (a : A) : no_error (Ok a).
Proof. intros e. discriminate. Qed.

Lemma no_error_go_div (a b : Z) : no_error (go_div a b).
Proof. intros e. unfold go_div. destruct (b =? 0); discriminate. Qed.

Lemma no_error_make {A : Type} (zero : A) (n : Z) : no_error (make zero n).
Proof. intros e. unfold make. destruct (n <? 0); discriminate. Qed.

Lemma no_error_load {A : Type} (s : list A) (i : Z) : no_error (load s i).
Proof.
  intros e. unfold load. destruct (i <? 0); [discriminate|].
  destruct (nth_error s (Z.to_nat i)); discriminate.
Qed.

Lemma no_error_store {A : Type} (s : list A) (i : Z) (x : A) : no_error (store s i x).
Proof. intros e. unfold store. destruct (_ || _); discriminate. Qed.

Lemma no_error_Samples (v : File) : no_error (Samples v).
Proof.
  unfold Samples. apply no_error_bind; [apply no_error_go_div|].
  intros per. apply no_error_go_div.
Qed.

Lemma no_error_fromS24_loop (trips : nat) (src dst : list byte) (i : Z) :
  no_error (fromS24_loop trips src dst i).
Proof.
  revert dst i. induction trips as [|k IH]; intros dst i; cbn [fromS24_loop].
  - apply no_error_Ok.
  - apply no_error_bind; [|intros d; apply IH].
    unfold fromS24_step.
    repeat (apply no_error_bind; [apply no_error_load || apply no_error_store | intros ?]).
    apply no_error_store.
Qed.

Lemma no_error_Int32s (v : File) : no_error (Int32s v).
Proof.
  unfold Int32s.
  destruct (BitsPerSample v =? 8);
    [| destruct (BitsPerSample v =? 16);
       [| destruct (BitsPerSample v =? 24);
          [| destruct (BitsPerSample v =? 32); [| apply no_error_Ok]]]].
  - unfold fromS8ToInt32s.
    apply no_error_bind; [apply no_error_Samples | intros n].
    apply no_error_bind; [apply no_error_make | intros s]. apply no_error_Ok.
  - unfold fromS16ToInt32s.
    apply no_error_bind; [apply no_error_Samples | intros n].
    apply no_error_bind; [apply no_error_make | intros s]. apply no_error_Ok.
  - unfold fromS24ToInt32s.
    apply no_error_bind; [apply no_error_Samples | intros n].
    apply no_error_bind; [apply no_error_make | intros d].
    apply no_error_bind; [apply no_error_make | intros s].
    apply no_error_bind; [apply no_error_fromS24_loop | intros d'].
    apply no_error_Ok.
  - unfold fromS32ToInt32s.
    apply no_error_bind; [apply no_error_Samples | intros n].
    apply no_error_bind; [apply no_error_make | intros s]. apply no_error_Ok.
Qed.

Lemma no_error_Float64s_loop (s32 : list Z) (i : Z) (turns : nat) :
  no_error (Float64s_loop s32 i turns).
Proof.
  revert i. induction turns as [|k IH]; intros i; cbn [Float64s_loop].
  - apply no_error_Ok.
  - apply no_error_bind; [apply no_error_load | intros x].
    apply no_error_bind; [apply IH | intros rest]. apply no_error_Ok.
Qed.

Lemma no_error_Float64s (v : File) : no_error (Float64s v).
Proof.
  unfold Float64s.
  apply no_error_bind; [apply no_error_Samples | intros n].
  apply no_error_bind; [apply no_error_Int32s | intros s].
  apply no_error_bind; [apply no_error_make | intros f].
  apply no_error_Float64s_loop.
Qed.

(** C9. For every File whose bit depth is none of 8, 16, 24 and 32,
    [Int32s] returns the empty slice: it neither panics nor fails; and for
    every File, whatever its bit depth, neither [Int32s] nor [Float64s]
    returns an error. *)
Theorem Int32s_unsupported_depth_is_empty (v : File) :
  (BitsPerSample v <> 8 -> BitsPerSample v <> 16 ->
   BitsPerSample v <> 24 -> BitsPerSample v <> 32 ->
   Int32s v = Ok []) /\
  no_error (Int32s v) /\ no_error (Float64s v).
Proof.
  split; [|split; [apply no_error_Int32s | apply no_error_Float64s]].
  intros H8 H16 H24 H32. unfold Int32s.
  destruct (Z.eqb_spec (BitsPerSample v) 8); [contradiction|].
  destruct (Z.eqb_spec (BitsPerSample v) 16); [contradiction|].
  destruct (Z.eqb_spec (BitsPerSample v) 24); [contradiction|].
  destruct (Z.eqb_spec (BitsPerSample v) 32); [contradiction|].
  reflexivity.
Qed.

Lemma Int32s_unsupported_depth_is_empty_witness :
  Int32s (mkFile 1 1 44100 66150 1 12 3 [x01; x02; x03] 0) = Ok [].
Proof.
  apply (proj1 (Int32s_unsupported_depth_is_empty
                  (mkFile 1 1 44100 66150 1 12 3 [x01; x02; x03] 0)));
    cbn; discriminate.
Defined.

(** ** Duration *)

Lemma int64_small (z : Z) : - 2 ^ 63 <= z < 2 ^ 63 -> int64 z = z.
Proof.
  intros H. unfold int64. rewrite Z.mod_small; lia.
Qed.

Lemma Duration_typed (v : File) :
  File_typed v -> 0 < blockAlign v ->
  Duration v = Ok (length v / blockAlign v * Second).
Proof.
  intros (_ & _ & _ & _ & Hb & _ & Hl & _) Hpos.
  unfold is_uint16, is_uint32 in *.
  unfold Duration, go_div, Length, BlockAlign.
  destruct (Z.eqb_spec (blockAlign v) 0); [lia|]. cbn [bind].
  rewrite Z.quot_div_nonneg by lia.
  rewrite int64_small; [reflexivity|].
  unfold Second.
  assert (0 <= length v / blockAlign v < 2 ^ 32).
  { split; [apply Z.div_pos; lia|].
    apply Z.div_lt_upper_bound; nia. }
  lia.
Qed.

(** C10. For every File with [blockAlign > 0], [Duration()] is
    [length / blockAlign] seconds, the number of sample frames counted as
    seconds, whatever [samplesPerSec] is; and it is the playing time
    [frames / samplesPerSec] of every such File of a given sample rate only
    when that rate is 1. *)
Theorem Duration_is_frame_count_in_seconds :
  (forall v, File_typed v -> 0 < blockAlign v ->
     Duration v = Ok (length v / blockAlign v * Second) /\
     forall rate, Duration (set_samplesPerSec v rate) = Duration v) /\
  (forall rate, is_uint32 rate ->
     (forall v d, File_typed v -> 0 < blockAlign v -> samplesPerSec v = rate ->
                  Duration v = Ok d -> is_playback_time v d)
     <-> rate = 1).
Proof.
  split.
  - intros v Ht Hpos. split; [apply Duration_typed; assumption | reflexivity].
  - intros rate Hr. split.
    + intros H.
      specialize (H (mkFile 1 1 rate rate 1 8 1 [x00] 0) Second).
      unfold is_playback_time in H. cbn [samplesPerSec length blockAlign] in H.
      assert (Hd : Second * rate = 1 / 1 * Second).
      { apply H; try reflexivity.
        unfold File_typed, is_uint16, is_uint32, is_int in *. cbn. lia. }
      unfold Second in Hd. change (1 / 1) with 1 in Hd. lia.
    + intros -> v d Ht Hpos Hrate Hd.
      rewrite (Duration_typed v Ht Hpos) in Hd. injection Hd as <-.
      unfold is_playback_time. rewrite Hrate. lia.
Qed.

Lemma one_second_file_typed : File_typed one_second_file.
Proof.
  unfold File_typed, is_uint16, is_uint32, is_int. cbn. lia.
Qed.

Lemma Duration_is_frame_count_in_seconds_witness :
  File_typed one_second_file /\ 0 < blockAlign one_second_file /\
  Duration one_second_file = Ok (44100 * Second).
Proof.
  split; [exact one_second_file_typed | split; [reflexivity|]].
  apply (proj1 Duration_is_frame_count_in_seconds one_second_file);
    [exact one_second_file_typed | reflexivity].
Defined.

(** ** Conversion to 32-bit samples *)

(** C6, the claim as stated fails on Files the package itself hands out:
    [New(44100, 8, 0)] succeeds and [Int32s] of its File panics on the
    division [blockAlign / channels]; and a complete buffer whose header says
    16 bit, one channel, block align 1 decodes to a File whose payload is the
    one sample [0x0100], for which [Int32s] returns two zeros. *)
Lemma Int32s_panics_or_returns_zeros :
  (exists f, New 44100 8 0 = Ok f /\ Int32s f = Panic DivideByZero) /\
  (exists f, Unmarshal narrow_align_stream (Some File_zero) = (Some f, None) /\
             length f = Z.of_nat (len (data f)) /\
             sample16 (data f) 0 = 0x0100 /\
             Int32s f = Ok [0; 0]).
Proof.
  split; eexists; (split; [vm_compute; reflexivity|]).
  - reflexivity.
  - repeat split.
Qed.

Lemma elems_length (w n : nat) (bs : list byte) : len (binary.elems w n bs) = n.
Proof.
  revert bs. induction n as [|n IH]; intros bs; cbn; [reflexivity | now rewrite IH].
Qed.

Lemma elems_nth (w n : nat) (bs : list byte) (i : nat) :
  (i < n)%nat ->
  nth i (binary.elems w n bs) 0 = binary.le_uint (field bs (i * w) w).
Proof.
  revert bs i. induction n as [|n IH]; intros bs i Hi; [lia|].
  destruct i as [|i]; cbn [binary.elems nth].
  - reflexivity.
  - rewrite IH by lia. unfold field. rewrite skipn_skipn.
    replace (i * w + w)%nat with (S i * w)%nat by lia. reflexivity.
Qed.

(** A [binary.Read] into a fresh slice of [n] elements that the reader covers. *)
Lemma Read_slice_covered (r : list byte) (w : nat) (conv : Z -> Z) (n : nat) :
  (n * w <= len r)%nat ->
  binary.Read_slice r w conv (repeat 0 n) = map conv (binary.elems w n r).
Proof.
  intros H. unfold binary.Read_slice. rewrite repeat_length.
  destruct (Nat.ltb_spec (len r) (n * w)); [lia | reflexivity].
Qed.

Lemma nth_map_Z (f : Z -> Z) (l : list Z) (i : nat) :
  (i < len l)%nat -> nth i (map f l) 0 = f (nth i l 0).
Proof.
  intros H. rewrite (nth_indep (map f l) 0 (f 0)) by (rewrite length_map; exact H).
  apply map_nth.
Qed.

Lemma field_cons (d : list byte) (off w : nat) :
  (off < len d)%nat -> field d off (S w) = nth off d x00 :: field d (S off) w.
Proof.
  intros H. unfold field. rewrite (skipn_cons_nth d off H). reflexivity.
Qed.

Lemma le_uint_field_1 (d : list byte) (i : nat) :
  (i < len d)%nat -> binary.le_uint (field d (i * 1) 1) = byte_at d i.
Proof.
  intros H. rewrite Nat.mul_1_r, field_cons by lia.
  unfold byte_at. cbn [field firstn binary.le_uint]. lia.
Qed.

Lemma le_uint_field_2 (d : list byte) (i : nat) :
  (2 * i + 2 <= len d)%nat ->
  binary.le_uint (field d (i * 2) 2)
  = byte_at d (2 * i) + 2 ^ 8 * byte_at d (2 * i + 1).
Proof.
  intros H. replace (i * 2)%nat with (2 * i)%nat by lia.
  rewrite !field_cons by lia.
  replace (S (2 * i)) with (2 * i + 1)%nat by lia.
  unfold byte_at. cbn [field firstn binary.le_uint]. lia.
Qed.

Lemma le_uint_field_4 (d : list byte) (i : nat) :
  (4 * i + 4 <= len d)%nat ->
  binary.le_uint (field d (i * 4) 4)
  = byte_at d (4 * i) + 2 ^ 8 * byte_at d (4 * i + 1)
    + 2 ^ 16 * byte_at d (4 * i + 2) + 2 ^ 24 * byte_at d (4 * i + 3).
Proof.
  intros H. replace (i * 4)%nat with (4 * i)%nat by lia.
  rewrite !field_cons by lia.
  replace (S (4 * i)) with (4 * i + 1)%nat by lia.
  replace (S (4 * i + 1)) with (4 * i + 2)%nat by lia.
  replace (S (4 * i + 2)) with (4 * i + 3)%nat by lia.
  unfold byte_at. cbn [field firstn binary.le_uint]. lia.
Qed.

Lemma byte_at_range (d : list byte) (i : nat) : 0 <= byte_at d i < 256.
Proof. apply u8_range. Qed.

Lemma int8_signed (u : Z) : 0 <= u < 2 ^ 8 -> int8 u = signed 8 u.
Proof.
  intros H. unfold int8, signed. change (2 ^ (8 - 1)) with (2 ^ 7).
  destruct (Z.ltb_spec u (2 ^ 7)); lia.
Qed.

Lemma int16_signed (u : Z) : 0 <= u < 2 ^ 16 -> int16 u = signed 16 u.
Proof.
  intros H. unfold int16, signed. change (2 ^ (16 - 1)) with (2 ^ 15).
  destruct (Z.ltb_spec u (2 ^ 15)); lia.
Qed.

Lemma int32_signed (u : Z) : 0 <= u < 2 ^ 32 -> int32 u = signed 32 u.
Proof.
  intros H. unfold int32, signed. change (2 ^ (32 - 1)) with (2 ^ 31).
  destruct (Z.ltb_spec u (2 ^ 31)); lia.
Qed.

Lemma signed_range (bits u : Z) :
  0 < bits -> 0 <= u < 2 ^ bits -> - 2 ^ (bits - 1) <= signed bits u < 2 ^ (bits - 1).
Proof.
  intros Hb H. unfold signed.
  assert (2 ^ bits = 2 * 2 ^ (bits - 1)).
  { replace bits with (Z.succ (bits - 1)) at 1 by lia. apply Z.pow_succ_r. lia. }
  destruct (Z.ltb_spec u (2 ^ (bits - 1))); lia.
Qed.

Lemma int32_small (z : Z) : - 2 ^ 31 <= z < 2 ^ 31 -> int32 z = z.
Proof.
  intros H. unfold int32. rewrite Z.mod_small; lia.
Qed.

(** When [Samples()] returns, it returns [length / (blockAlign / channels)],
    a count that is not negative. *)
Lemma Samples_typed (v : File) (samples : Z) :
  File_typed v -> Samples v = Ok samples ->
  channels v <> 0 /\ blockAlign v / channels v <> 0 /\
  samples = length v / (blockAlign v / channels v) /\ 0 <= samples.
Proof.
  intros (_ & Hc & _ & _ & Hb & _ & Hl & _). unfold is_uint16, is_uint32 in *.
  unfold Samples, go_div.
  destruct (Z.eqb_spec (channels v) 0); [discriminate|]. cbn [bind].
  rewrite Z.quot_div_nonneg by lia.
  destruct (Z.eqb_spec (blockAlign v / channels v) 0); [discriminate|].
  intros H. injection H as <-.
  assert (0 < blockAlign v / channels v).
  { assert (0 <= blockAlign v / channels v) by (apply Z.div_pos; lia). lia. }
  rewrite Z.quot_div_nonneg by lia.
  repeat split; try assumption. apply Z.div_pos; lia.
Qed.

Ltac enter_conversion HS Hn :=
  unfold Int32s; cbn [Z.eqb Pos.eqb];
  unfold fromS8ToInt32s, fromS16ToInt32s, fromS32ToInt32s;
  rewrite HS; cbn [bind]; unfold make;
  match goal with
  | |- context [?n <? 0] => destruct (Z.ltb_spec n 0); [lia|]
  end;
  cbn [bind]; rewrite Read_slice_covered by lia.

(** C6 (amended). For every File for which [Samples()] is defined (neither
    [channels] nor [blockAlign / channels] is zero) and whose data holds at
    least [Samples() * bitsPerSample / 8] bytes, [Int32s] returns
    [Samples() = length / (blockAlign / channels)] values: at 8 bit the
    signed bytes times 2^24, at 16 bit the little-endian signed 16-bit
    samples times 2^16, at 32 bit the little-endian signed 32-bit samples
    unscaled. *)
Theorem Int32s_scales_to_full_range (v : File) (samples : Z) :
  File_typed v ->
  Samples v = Ok samples ->
  samples * (bitsPerSample v / 8) <= Z.of_nat (len (data v)) ->
  samples = length v / (blockAlign v / channels v) /\
  (BitsPerSample v = 8 ->
   exists out, Int32s v = Ok out /\ Z.of_nat (len out) = samples /\
     forall i, (i < len out)%nat -> nth i out 0 = sample8 (data v) i * 2 ^ 24) /\
  (BitsPerSample v = 16 ->
   exists out, Int32s v = Ok out /\ Z.of_nat (len out) = samples /\
     forall i, (i < len out)%nat -> nth i out 0 = sample16 (data v) i * 2 ^ 16) /\
  (BitsPerSample v = 32 ->
   exists out, Int32s v = Ok out /\ Z.of_nat (len out) = samples /\
     forall i, (i < len out)%nat -> nth i out 0 = sample32 (data v) i).
Proof.
  intros Ht HS Hd.
  destruct (Samples_typed v samples Ht HS) as (_ & _ & Hs & Hn).
  split; [exact Hs|]. unfold BitsPerSample. split; [|split]; intros Hb;
    rewrite Hb in Hd; unfold Int32s, BitsPerSample; rewrite Hb.
  - change (8 / 8) with 1 in Hd. enter_conversion HS Hn.
    eexists. split; [reflexivity|].
    split; [rewrite !length_map, elems_length; lia|].
    rewrite !length_map, elems_length. intros i Hi.
    rewrite !nth_map_Z by (rewrite ?length_map, elems_length; lia).
    rewrite elems_nth, le_uint_field_1 by lia.
    pose proof (byte_at_range (data v) i) as Hr.
    rewrite int8_signed by lia. unfold sample8.
    pose proof (signed_range 8 (byte_at (data v) i) ltac:(lia) ltac:(lia)) as Hsr.
    change (2 ^ (8 - 1)) with (2 ^ 7) in Hsr.
    apply int32_small. lia.
  - change (16 / 8) with 2 in Hd. enter_conversion HS Hn.
    eexists. split; [reflexivity|].
    split; [rewrite !length_map, elems_length; lia|].
    rewrite !length_map, elems_length. intros i Hi.
    rewrite !nth_map_Z by (rewrite ?length_map, elems_length; lia).
    rewrite elems_nth, le_uint_field_2 by lia.
    pose proof (byte_at_range (data v) (2 * i)) as Hr0.
    pose proof (byte_at_range (data v) (2 * i + 1)) as Hr1.
    rewrite int16_signed by lia. unfold sample16.
    pose proof (signed_range 16
      (byte_at (data v) (2 * i) + 2 ^ 8 * byte_at (data v) (2 * i + 1))
      ltac:(lia) ltac:(lia)) as Hsr.
    change (2 ^ (16 - 1)) with (2 ^ 15) in Hsr.
    apply int32_small. lia.
  - change (32 / 8) with 4 in Hd. enter_conversion HS Hn.
    eexists. split; [reflexivity|].
    split; [rewrite !length_map, elems_length; lia|].
    rewrite !length_map, elems_length. intros i Hi.
    rewrite !nth_map_Z by (rewrite ?length_map, elems_length; lia).
    rewrite elems_nth, le_uint_field_4 by lia.
    pose proof (byte_at_range (data v) (4 * i)) as Hr0.
    pose proof (byte_at_range (data v) (4 * i + 1)) as Hr1.
    pose proof (byte_at_range (data v) (4 * i + 2)) as Hr2.
    pose proof (byte_at_range (data v) (4 * i + 3)) as Hr3.
    rewrite int32_signed by lia. reflexivity.
Qed.

Lemma pcm_file_typed : File_typed pcm_file.
Proof.
  unfold File_typed, is_uint16, is_uint32, is_int. cbn. lia.
Qed.

Lemma Int32s_scales_to_full_range_witness :
  File_typed pcm_file /\ Samples pcm_file = Ok 1 /\
  exists out, Int32s pcm_file = Ok out /\ Z.of_nat (len out) = 1 /\
    forall i, (i < len out)%nat -> nth i out 0 = sample16 (data pcm_file) i * 2 ^ 16.
Proof.
  split; [exact pcm_file_typed | split; [reflexivity|]].
  refine (proj1 (proj2 (proj2
    (Int32s_scales_to_full_range pcm_file 1 pcm_file_typed eq_refl _))) eq_refl).
  vm_compute. discriminate.
Defined.

(** The two values the specification quotes: the 16-bit sample [0x0100] and
    the 8-bit sample 1 both come out as 16777216. *)
Example Int32s_16_bit_0x0100 :
  Unmarshal pcm_stream (Some File_zero) = (Some pcm_file, None) /\
  Int32s pcm_file = Ok [16777216].
Proof. split; vm_compute; reflexivity. Qed.

Example Int32s_8_bit_1 : Int32s s8_file = Ok [16777216; -16777216].
Proof. vm_compute. reflexivity. Qed.

(** C2, at the failing input: the File of [New(44100, 24, 1)] after a
    [Write] of the 24-bit sample 1 ([01 00 00]).  Sign-extended and shifted
    left by 8 bits the sample is 256; [Int32s] returns 65536, the sample
    shifted left by 16 bits, because the loop stores the three bytes in the
    three high bytes of the 32-bit word and the result is multiplied by 2^8
    once more. *)
Theorem Int32s_24_bit_shifts_by_16 :
  (exists f, New 44100 24 1 = Ok f /\ Write f [x01; x00; x00] = (s24_file, 3, None)) /\
  sample24 (data s24_file) 0 * 2 ^ 8 = 256 /\
  Int32s s24_file = Ok [65536].
Proof.
  split; [eexists; split; [vm_compute; reflexivity|]; vm_compute; reflexivity|].
  split; vm_compute; reflexivity.
Qed.

(** The same for the sample [0x010000]: its high byte leaves the 32-bit word
    and [Int32s] returns 0. *)
Example Int32s_24_bit_drops_high_byte :
  sample24 [x00; x00; x01] 0 * 2 ^ 8 = 16777216 /\
  Int32s (mkFile 0xFFFE 1 44100 132300 3 24 3 [x00; x00; x01] 0) = Ok [0].
Proof. split; vm_compute; reflexivity. Qed.

(** *** What the 24-bit path computes in general *)

Lemma update_app (W l : list byte) (j : nat) (x : byte) :
  update (W ++ l) (len W + j) x = W ++ update l j x.
Proof.
  induction W as [|w W IH]; cbn [app List.length Nat.add update]; [reflexivity|].
  now rewrite IH.
Qed.

Lemma store_app (W l : list byte) (j : nat) (x : byte) :
  (j < len l)%nat ->
  store (W ++ l) (Z.of_nat (len W + j)) x = Ok (W ++ update l j x).
Proof.
  intros H. unfold store. rewrite length_app.
  destruct (Z.ltb_spec (Z.of_nat (len W + j)) 0); [lia|].
  destruct (Z.leb_spec (Z.of_nat (len W + len l)) (Z.of_nat (len W + j))); [lia|].
  cbn [orb]. rewrite Nat2Z.id, update_app. reflexivity.
Qed.

Lemma nth_skipn_byte (l : list byte) (a j : nat) :
  nth j (skipn a l) x00 = nth (a + j) l x00.
Proof.
  revert l. induction a as [|a IH]; intros l; [reflexivity|].
  destruct l as [|x l]; cbn [skipn Nat.add nth]; [now destruct j | apply IH].
Qed.

Lemma fromS24_step_spec (src W Z0 : list byte) (k : nat) :
  len W = (4 * k)%nat -> (3 * k + 3 <= len src)%nat ->
  fromS24_step src (W ++ x00 :: x00 :: x00 :: x00 :: Z0) (Z.of_nat (3 * k))
  = Ok (W ++ x00 :: nth (3 * k) src x00 :: nth (3 * k + 1) src x00
          :: nth (3 * k + 2) src x00 :: Z0).
Proof.
  intros HW Hsrc. unfold fromS24_step.
  replace (Z.quot (Z.of_nat (3 * k)) 3 + 1 + Z.of_nat (3 * k))
    with (Z.of_nat (len W + 1)).
  2:{ rewrite Z.quot_div_nonneg by lia. lia. }
  replace (Z.of_nat (len W + 1) + 1) with (Z.of_nat (len W + 2)) by lia.
  replace (Z.of_nat (len W + 1) + 2) with (Z.of_nat (len W + 3)) by lia.
  replace (Z.of_nat (3 * k) + 1) with (Z.of_nat (3 * k + 1)) by lia.
  replace (Z.of_nat (3 * k) + 2) with (Z.of_nat (3 * k + 2)) by lia.
  rewrite load_inside by lia. cbn [bind].
  rewrite store_app by (cbn [List.length]; lia). cbn [bind update].
  rewrite load_inside by lia. cbn [bind].
  rewrite store_app by (cbn [List.length]; lia). cbn [bind update].
  rewrite load_inside by lia. cbn [bind].
  rewrite store_app by (cbn [List.length]; lia). cbn [update].
  reflexivity.
Qed.

Lemma fromS24_loop_spec (src : list byte) (t k : nat) (W : list byte) :
  len W = (4 * k)%nat -> (3 * k + 3 * t <= len src)%nat ->
  fromS24_loop t src (W ++ repeat x00 (4 * t)) (Z.of_nat (3 * k))
  = Ok (W ++ widen24 t (skipn (3 * k) src)).
Proof.
  revert k W. induction t as [|t IH]; intros k W HW Hsrc.
  - cbn [fromS24_loop Nat.mul repeat widen24]. reflexivity.
  - replace (4 * S t)%nat with (S (S (S (S (4 * t))))) by lia.
    cbn [fromS24_loop repeat widen24].
    rewrite fromS24_step_spec by lia. cbn [bind].
    replace (Z.of_nat (3 * k) + 3) with (Z.of_nat (3 * S k)) by lia.
    pose proof (IH (S k)
      (W ++ [x00; nth (3 * k) src x00; nth (3 * k + 1) src x00;
             nth (3 * k + 2) src x00])) as IH'.
    rewrite <- app_assoc in IH'. cbn [app] in IH'.
    rewrite IH' by (rewrite ?length_app; cbn [List.length]; lia).
    rewrite <- app_assoc. cbn [app].
    rewrite !nth_skipn_byte, skipn_skipn.
    replace (3 * k + 0)%nat with (3 * k)%nat by lia.
    replace (3 + 3 * k)%nat with (3 * S k)%nat by lia.
    reflexivity.
Qed.

Lemma widen24_length (t : nat) (l : list byte) : len (widen24 t l) = (4 * t)%nat.
Proof.
  revert l. induction t as [|t IH]; intros l; cbn [widen24 List.length];
    [reflexivity | rewrite IH; lia].
Qed.

Lemma elems_widen24_nth (t : nat) (l : list byte) (i : nat) :
  (i < t)%nat ->
  nth i (binary.elems 4 t (widen24 t l)) 0
  = 2 ^ 8 * (byte_at l (3 * i) + 2 ^ 8 * byte_at l (3 * i + 1)
             + 2 ^ 16 * byte_at l (3 * i + 2)).
Proof.
  revert l i. induction t as [|t IH]; intros l i Hi; [lia|].
  cbn [widen24 binary.elems].
  set (rest := widen24 t (skipn 3 l)). cbn [firstn skipn]. subst rest.
  destruct i as [|i]; cbn [nth].
  - cbn [binary.le_uint]. unfold byte_at. change (u8 x00) with 0.
    replace (3 * 0)%nat with 0%nat by lia. cbn [Nat.add]. lia.
  - rewrite IH by lia. unfold byte_at. rewrite !nth_skipn_byte.
    replace (3 + 3 * i)%nat with (3 * S i)%nat by lia.
    replace (3 + (3 * i + 1))%nat with (3 * S i + 1)%nat by lia.
    replace (3 + (3 * i + 2))%nat with (3 * S i + 2)%nat by lia.
    reflexivity.
Qed.

Lemma testbit_7_of_byte (b : Z) : 0 <= b < 256 -> Z.testbit b 7 = (128 <=? b).
Proof.
  intros H. rewrite Z.testbit_odd, Z.shiftr_div_pow2 by lia.
  change (2 ^ 7) with 128.
  destruct (Z.leb_spec 128 b).
  - replace (b / 128) with 1 by lia. reflexivity.
  - replace (b / 128) with 0 by lia. reflexivity.
Qed.

(** Widening the sample as [fromS24ToInt32s] does and scaling it once more
    gives the sample times 2^16, cut to 32 bits. *)
Lemma scaled_twice (b0 b1 b2 : Z) :
  0 <= b0 < 256 -> 0 <= b1 < 256 -> 0 <= b2 < 256 ->
  int32 (int32 (2 ^ 8 * (b0 + 2 ^ 8 * b1 + 2 ^ 16 * b2)) * 2 ^ 8)
  = int32 (signed 32 (b0 + 2 ^ 8 * b1 + 2 ^ 16 * b2
                      + 2 ^ 24 * (if Z.testbit b2 7 then 0xFF else 0x00))
           * 2 ^ 16).
Proof.
  intros H0 H1 H2. rewrite testbit_7_of_byte by exact H2.
  unfold signed. change (2 ^ (32 - 1)) with (2 ^ 31).
  unfold int32.
  destruct (Z.leb_spec 128 b2);
    match goal with
    | |- context [if ?c then _ else _] => destruct c
    end; lia.
Qed.

(** X18. For every 24-bit File with 3 bytes per sample whose data holds its
    [length = 3 * samples] bytes, [Int32s] returns one value per sample, and
    that value is the sign-extended sample times 2^16 cut to 32 bits: the
    sample's low 16 bits in the high half of the word. *)
Lemma Int32s_24_bit_general (v : File) (samples : Z) :
  File_typed v ->
  BitsPerSample v = 24 ->
  Samples v = Ok samples ->
  length v = 3 * samples ->
  length v <= Z.of_nat (len (data v)) ->
  exists out, Int32s v = Ok out /\ Z.of_nat (len out) = samples /\
    forall i, (i < len out)%nat ->
              nth i out 0 = int32 (sample24 (data v) i * 2 ^ 16).
Proof.
  intros Ht Hb HS Hl Hd.
  destruct (Samples_typed v samples Ht HS) as (_ & _ & _ & Hn).
  unfold Int32s. rewrite Hb. cbn [Z.eqb Pos.eqb].
  unfold fromS24ToInt32s, Length. rewrite HS. cbn [bind]. unfold make.
  destruct (Z.ltb_spec (samples * 4) 0); [lia|].
  destruct (Z.ltb_spec samples 0); [lia|]. cbn [bind].
  set (n := Z.to_nat samples).
  replace (Z.to_nat (samples * 4)) with (4 * n)%nat by lia.
  replace (Z.to_nat ((length v + 2) / 3)) with n by lia.
  pose proof (fromS24_loop_spec (data v) n 0 [] eq_refl ltac:(lia)) as Hloop.
  change (3 * 0)%nat with 0%nat in Hloop. cbn [app skipn] in Hloop.
  change (Z.of_nat 0) with 0 in Hloop.
  rewrite Hloop. cbn [bind].
  rewrite Read_slice_covered by (rewrite widen24_length; lia).
  eexists. split; [reflexivity|].
  rewrite !length_map, elems_length. split; [lia|].
  intros i Hi.
  rewrite !nth_map_Z by (rewrite ?length_map, elems_length; lia).
  rewrite elems_widen24_nth by lia.
  unfold sample24.
  apply scaled_twice; apply byte_at_range.
Qed.

(** * Further properties of the package *)

(** ** Fields of a buffer written piece by piece *)

Lemma field_app_skip (a l : list byte) (n off k w : nat) :
  len a = n -> off = (n + k)%nat -> field (a ++ l) off w = field l k w.
Proof.
  intros <- ->. unfold field. rewrite skipn_app.
  rewrite skipn_all2 by lia.
  replace (len a + k - len a)%nat with k by lia. reflexivity.
Qed.

Lemma field_app_take (a l : list byte) (w : nat) :
  len a = w -> field (a ++ l) 0 w = a.
Proof.
  intros <-. unfold field. cbn [skipn]. rewrite firstn_app, Nat.sub_diag.
  cbn [firstn]. rewrite app_nil_r. apply firstn_all.
Qed.

Lemma skipn_app_exact (a l : list byte) (n : nat) :
  len a = n -> skipn n (a ++ l) = l.
Proof.
  intros <-. rewrite skipn_app, skipn_all, Nat.sub_diag. reflexivity.
Qed.

Lemma uint_at_put_le (w : nat) (z : Z) (l : list byte) :
  uint_at (binary.put_le w z ++ l) 0 w = z mod 256 ^ Z.of_nat w.
Proof.
  unfold uint_at. rewrite field_app_take by apply put_le_length.
  apply le_uint_put_le.
Qed.

(** [find_field] walks to the piece that starts at the offset asked for. *)
Ltac find_field :=
  repeat match goal with
         | |- context [field (?a ++ ?l) ?off ?w] =>
             let n := eval vm_compute in (len a) in
             let k := eval vm_compute in (off - n)%nat in
             rewrite (field_app_skip a l n off k w eq_refl eq_refl)
         end.

Ltac drop_pieces :=
  repeat match goal with
         | |- context [skipn ?m (?a ++ ?l)] =>
             let n := eval vm_compute in (len a) in
             let k := eval vm_compute in (m - n)%nat in
             replace (skipn m (a ++ l)) with (skipn k l)
               by (replace m with (n + k)%nat by reflexivity;
                   rewrite <- skipn_skipn, (skipn_app_exact a l n eq_refl);
                   reflexivity)
         end.

Section PCM_layout.
Variables (size fmt tag ch rate avg align bits declared : Z) (payload : list byte).
Let s := pcm_layout size fmt tag ch rate avg align bits declared payload.

Lemma pcm_layout_length : len s = (44 + len payload)%nat.
Proof.
  subst s. unfold pcm_layout. rewrite !length_app, !put_le_length. reflexivity.
Qed.

Lemma pcm_layout_fields :
  field s 0 4 = ascii_bytes "RIFF" /\
  uint_at s 4 4 = size mod 2 ^ 32 /\
  field s 8 8 = ascii_bytes "WAVEfmt " /\
  uint_at s 16 4 = fmt mod 2 ^ 32 /\
  uint_at s 20 2 = tag mod 2 ^ 16 /\
  uint_at s 22 2 = ch mod 2 ^ 16 /\
  uint_at s 24 4 = rate mod 2 ^ 32 /\
  uint_at s 28 4 = avg mod 2 ^ 32 /\
  uint_at s 32 2 = align mod 2 ^ 16 /\
  uint_at s 34 2 = bits mod 2 ^ 16 /\
  field s 36 4 = ascii_bytes "data" /\
  uint_at s 40 4 = declared mod 2 ^ 32 /\
  skipn 44 s = payload.
Proof.
  subst s. unfold pcm_layout, uint_at.
  repeat split; find_field;
    try (rewrite field_app_take by (apply put_le_length || reflexivity));
    try apply le_uint_put_le; try reflexivity.
Qed.
End PCM_layout.

Section EXTENSIBLE_layout.
Variables (size fmt tag ch rate avg align bits cb valid mask frames declared : Z)
          (payload : list byte).
Let s := ext_layout size fmt tag ch rate avg align bits cb valid mask frames
                    declared payload.

Lemma ext_layout_length : len s = (80 + len payload)%nat.
Proof.
  subst s. unfold ext_layout. rewrite !length_app, !put_le_length. reflexivity.
Qed.

Lemma ext_layout_fields :
  field s 0 4 = ascii_bytes "RIFF" /\
  uint_at s 4 4 = size mod 2 ^ 32 /\
  field s 8 8 = ascii_bytes "WAVEfmt " /\
  uint_at s 16 4 = fmt mod 2 ^ 32 /\
  uint_at s 20 2 = tag mod 2 ^ 16 /\
  uint_at s 22 2 = ch mod 2 ^ 16 /\
  uint_at s 24 4 = rate mod 2 ^ 32 /\
  uint_at s 28 4 = avg mod 2 ^ 32 /\
  uint_at s 32 2 = align mod 2 ^ 16 /\
  uint_at s 34 2 = bits mod 2 ^ 16 /\
  uint_at s 36 2 = cb mod 2 ^ 16 /\
  uint_at s 38 2 = valid mod 2 ^ 16 /\
  uint_at s 40 4 = mask mod 2 ^ 32 /\
  field s 44 16 = guid /\
  field s 60 4 = ascii_bytes "fact" /\
  uint_at s 64 4 = 4 /\
  uint_at s 68 4 = frames mod 2 ^ 32 /\
  field s 72 4 = ascii_bytes "data" /\
  uint_at s 76 4 = declared mod 2 ^ 32 /\
  skipn 80 s = payload.
Proof.
  subst s. unfold ext_layout, uint_at.
  repeat split; find_field;
    try (rewrite field_app_take by (apply put_le_length || reflexivity));
    try apply le_uint_put_le; try reflexivity.
Qed.
End EXTENSIBLE_layout.

Lemma Marshal_PCM_layout (v : File) :
  formatTag v = WAVE_FORMAT_PCM ->
  Marshal v
  = Ok (pcm_layout (uint32 (length v + 36)) 16 (formatTag v) (channels v)
          (samplesPerSec v) (avgBytesPerSec v) (blockAlign v) (bitsPerSample v)
          (length v) (data v)).
Proof.
  intros H. rewrite (Marshal_PCM v H). reflexivity.
Qed.

Lemma Marshal_EXTENSIBLE_layout (v : File) :
  formatTag v = WAVE_FORMAT_EXTENSIBLE -> blockAlign v <> 0 ->
  Marshal v
  = Ok (ext_layout (uint32 (length v + 72)) 40 (formatTag v) (channels v)
          (samplesPerSec v) (avgBytesPerSec v) (blockAlign v) (bitsPerSample v)
          22 (bitsPerSample v) (uint32 (getChannelMask (channels v)))
          (uint32 (Z.quot (length v) (blockAlign v))) (length v) (data v)).
Proof.
  intros H Hb. rewrite (Marshal_EXTENSIBLE v H Hb). reflexivity.
Qed.

(** ** What [Marshal] returns *)

(** X1. [Marshal] has four outcomes, decided by the format tag and the block
    align alone: an invalid-format-tag error for a tag that is neither PCM
    nor EXTENSIBLE, a divide-by-zero panic for an EXTENSIBLE File with block
    align 0, and otherwise a buffer of 44 (PCM) or 80 (EXTENSIBLE) header
    bytes followed by all of [data], whatever the [length] field says. *)
Theorem Marshal_outcome (v : File) :
  (formatTag v <> WAVE_FORMAT_PCM -> formatTag v <> WAVE_FORMAT_EXTENSIBLE ->
   Marshal v = Error ErrInvalidFormatTag) /\
  (formatTag v = WAVE_FORMAT_EXTENSIBLE -> blockAlign v = 0 ->
   Marshal v = Panic DivideByZero) /\
  (formatTag v = WAVE_FORMAT_PCM ->
   exists s, Marshal v = Ok s /\ len s = (44 + len (data v))%nat /\
             skipn 44 s = data v) /\
  (formatTag v = WAVE_FORMAT_EXTENSIBLE -> blockAlign v <> 0 ->
   exists s, Marshal v = Ok s /\ len s = (80 + len (data v))%nat /\
             skipn 80 s = data v).
Proof.
  split; [|split; [|split]].
  - intros Hp He. unfold Marshal.
    destruct (Z.eqb_spec (formatTag v) WAVE_FORMAT_PCM); [contradiction|].
    destruct (Z.eqb_spec (formatTag v) WAVE_FORMAT_EXTENSIBLE); [contradiction|].
    reflexivity.
  - apply Marshal_EXTENSIBLE_zero_block_align.
  - intros Hp. eexists. split; [apply Marshal_PCM_layout; exact Hp|].
    split; [apply pcm_layout_length | apply pcm_layout_fields].
  - intros He Hb. eexists. split; [apply Marshal_EXTENSIBLE_layout; assumption|].
    split; [apply ext_layout_length | apply ext_layout_fields].
Qed.

Lemma Marshal_outcome_witness :
  Marshal File_zero = Error ErrInvalidFormatTag /\
  Marshal (mkFile 0xFFFE 0 44100 0 0 24 0 [] 0) = Panic DivideByZero /\
  (exists s, Marshal pcm_file = Ok s /\ len s = 46%nat /\ skipn 44 s = [x00; x01]).
Proof.
  split; [|split].
  - apply (proj1 (Marshal_outcome File_zero)); discriminate.
  - apply (proj1 (proj2 (Marshal_outcome (mkFile 0xFFFE 0 44100 0 0 24 0 [] 0))));
      reflexivity.
  - apply (proj1 (proj2 (proj2 (Marshal_outcome pcm_file)))). reflexivity.
Defined.

Lemma uint16_small (z : Z) : 0 <= z < 2 ^ 16 -> z mod 2 ^ 16 = z.
Proof. intros H. apply Z.mod_small. exact H. Qed.

Lemma mod32_small (z : Z) : 0 <= z < 2 ^ 32 -> z mod 2 ^ 32 = z.
Proof. intros H. apply Z.mod_small. exact H. Qed.

(** X2. Decoding what [Marshal] wrote gives the File back: for every File
    with fields of their Go types, a PCM or EXTENSIBLE tag (block align not 0
    for EXTENSIBLE) and [length] equal to the byte length of [data],
    [Marshal] returns a buffer that [Unmarshal] decodes, into any
    destination, to the same eight fields; the destination keeps its own
    read offset. *)
Theorem Unmarshal_Marshal_roundtrip (v audio : File) :
  File_typed v ->
  formatTag v = WAVE_FORMAT_PCM \/
  (formatTag v = WAVE_FORMAT_EXTENSIBLE /\ blockAlign v <> 0) ->
  length v = Z.of_nat (len (data v)) ->
  exists s, Marshal v = Ok s /\
            Unmarshal s (Some audio) = (Some (set_offset v (offset audio)), None).
Proof.
  intros (Ht & Hc & Hr & Ha & Hb & Hbi & Hl & _) Htag Hinv.
  unfold is_uint16, is_uint32 in *.
  destruct Htag as [Hp | [He Hba]].
  - eexists. split; [apply Marshal_PCM_layout; exact Hp|].
    pose proof (pcm_layout_fields (uint32 (length v + 36)) 16 (formatTag v)
                  (channels v) (samplesPerSec v) (avgBytesPerSec v) (blockAlign v)
                  (bitsPerSample v) (length v) (data v)) as F.
    cbn zeta in F.
    destruct F as (_ & _ & _ & _ & Ftag & Fch & Frate & Favg & Fal & Fbits & _ &
                   Flen & Fpay).
    rewrite uint16_small in Ftag, Fch, Fal, Fbits by assumption.
    rewrite mod32_small in Frate, Favg, Flen by assumption.
    rewrite Unmarshal_PCM_complete.
    + rewrite Fch, Frate, Favg, Fal, Fbits, Flen.
      unfold field. rewrite Fpay, Hinv, Nat2Z.id, firstn_all, <- Hinv, <- Hp.
      destruct v; reflexivity.
    + rewrite Ftag. exact Hp.
    + rewrite Flen, pcm_layout_length. lia.
  - eexists. split; [apply Marshal_EXTENSIBLE_layout; assumption|].
    pose proof (ext_layout_fields (uint32 (length v + 72)) 40 (formatTag v)
                  (channels v) (samplesPerSec v) (avgBytesPerSec v) (blockAlign v)
                  (bitsPerSample v) 22 (bitsPerSample v)
                  (uint32 (getChannelMask (channels v)))
                  (uint32 (Z.quot (length v) (blockAlign v))) (length v) (data v))
      as F.
    cbn zeta in F.
    destruct F as (_ & _ & _ & _ & Ftag & Fch & Frate & Favg & Fal & Fbits & _ &
                   _ & _ & _ & _ & _ & _ & _ & Flen & Fpay).
    rewrite uint16_small in Ftag, Fch, Fal, Fbits by assumption.
    rewrite mod32_small in Frate, Favg, Flen by assumption.
    rewrite Unmarshal_EXTENSIBLE_complete.
    + rewrite Fch, Frate, Favg, Fal, Fbits, Flen.
      unfold field. rewrite Fpay, Hinv, Nat2Z.id, firstn_all, <- Hinv, <- He.
      destruct v; reflexivity.
    + rewrite Ftag. exact He.
    + rewrite Flen, ext_layout_length. lia.
Qed.

Lemma s24_file_typed : File_typed s24_file.
Proof.
  unfold File_typed, is_uint16, is_uint32, is_int. cbn. lia.
Qed.

Lemma Unmarshal_Marshal_roundtrip_witness :
  exists s, Marshal s24_file = Ok s /\
            Unmarshal s (Some cd_file) = (Some s24_file, None).
Proof.
  apply (Unmarshal_Marshal_roundtrip s24_file cd_file s24_file_typed).
  - right. split; [reflexivity | discriminate].
  - reflexivity.
Defined.

(** X3. What [Marshal] writes is a well-formed buffer of the fixed-offset
    profile: for every File with fields of their Go types, [length] equal to
    the byte length of [data], and a PCM tag, or an EXTENSIBLE tag with block
    align not 0, the buffer has the literal tags, the total size
    [length + 36] or [length + 72] (mod 2^32), the format-chunk size 16 or
    40 and, for EXTENSIBLE, cbSize 22, the bit depth as valid bits, the mask
    [getChannelMask(channels)], the PCM GUID and the frame count
    [length / blockAlign]. *)
Theorem Marshal_well_formed (v : File) :
  File_typed v ->
  formatTag v = WAVE_FORMAT_PCM \/
  (formatTag v = WAVE_FORMAT_EXTENSIBLE /\ blockAlign v <> 0) ->
  length v = Z.of_nat (len (data v)) ->
  exists s, Marshal v = Ok s /\ well_formed s.
Proof.
  intros (Ht & Hc & Hr & Ha & Hb & Hbi & Hl & _) Htag Hinv.
  unfold is_uint16, is_uint32 in *.
  destruct Htag as [Hp | [He Hba]].
  - eexists. split; [apply Marshal_PCM_layout; exact Hp|]. left.
    pose proof (pcm_layout_fields (uint32 (length v + 36)) 16 (formatTag v)
                  (channels v) (samplesPerSec v) (avgBytesPerSec v) (blockAlign v)
                  (bitsPerSample v) (length v) (data v)) as F.
    pose proof (pcm_layout_length (uint32 (length v + 36)) 16 (formatTag v)
                  (channels v) (samplesPerSec v) (avgBytesPerSec v) (blockAlign v)
                  (bitsPerSample v) (length v) (data v)) as L.
    cbn zeta in F, L.
    destruct F as (F0 & Fsize & F8 & Ffmt & Ftag & _ & _ & _ & _ & _ & Fdata &
                   Flen & _).
    rewrite uint16_small in Ftag by assumption.
    rewrite mod32_small in Flen by assumption.
    unfold well_formed_PCM. rewrite Flen, Fsize, Ffmt, Ftag, L.
    repeat split; try assumption.
    + unfold uint32. apply Z.mod_mod. lia.
    + lia.
  - eexists. split; [apply Marshal_EXTENSIBLE_layout; assumption|]. right.
    pose proof (ext_layout_fields (uint32 (length v + 72)) 40 (formatTag v)
                  (channels v) (samplesPerSec v) (avgBytesPerSec v) (blockAlign v)
                  (bitsPerSample v) 22 (bitsPerSample v)
                  (uint32 (getChannelMask (channels v)))
                  (uint32 (Z.quot (length v) (blockAlign v))) (length v) (data v))
      as F.
    pose proof (ext_layout_length (uint32 (length v + 72)) 40 (formatTag v)
                  (channels v) (samplesPerSec v) (avgBytesPerSec v) (blockAlign v)
                  (bitsPerSample v) 22 (bitsPerSample v)
                  (uint32 (getChannelMask (channels v)))
                  (uint32 (Z.quot (length v) (blockAlign v))) (length v) (data v))
      as L.
    cbn zeta in F, L.
    destruct F as (F0 & Fsize & F8 & Ffmt & Ftag & Fch & _ & _ & Fal & Fbits & Fcb &
                   Fvalid & Fmask & Fguid & Ffact & Ffs & Ffr & Fdata & Flen & _).
    rewrite uint16_small in Ftag, Fch, Fal, Fbits, Fvalid by assumption.
    rewrite mod32_small in Flen by assumption.
    unfold well_formed_EXTENSIBLE.
    rewrite Flen, Fsize, Ffmt, Ftag, Fch, Fal, Fbits, Fcb, Fvalid, Fmask, Ffr, L.
    repeat split; try assumption.
    + unfold uint32. apply Z.mod_mod. lia.
    + unfold uint32. rewrite Z.mod_mod by lia.
      apply Z.mod_small. apply getChannelMask_range.
    + rewrite Z.quot_div_nonneg by lia.
      unfold uint32. rewrite Z.mod_mod by lia. apply Z.mod_small.
      split; [apply Z.div_pos; lia|].
      apply Z.div_lt_upper_bound; nia.
    + lia.
Qed.

Lemma Marshal_well_formed_witness :
  exists s, Marshal s24_file = Ok s /\ well_formed s.
Proof.
  apply (Marshal_well_formed s24_file s24_file_typed).
  - right. split; [reflexivity | discriminate].
  - reflexivity.
Defined.

(** ** Appending *)

Lemma Write_length_is_data_length_witness :
  exists v', Write cd_file [x01; x02; x03; x04] = (v', 4, None) /\
             data v' = [x01; x02; x03; x04] /\ length v' = 4 /\
             length v' = Z.of_nat (len (data v')).
Proof.
  destruct (Write_length_is_data_length cd_file [x01; x02; x03; x04] eq_refl)
    as (v' & HW & Hd & Hl & Hi).
  - vm_compute. reflexivity.
  - exists v'. repeat split; assumption.
Defined.

(** X5. Two [Write]s in a row leave the File exactly as one [Write] of the
    concatenated bytes does, for every File and all byte slices, the 32-bit
    wrap-around of [length] included. *)
Theorem Write_Write (v : File) (a b : list byte) :
  fst (fst (Write (fst (fst (Write v a))) b)) = fst (fst (Write v (a ++ b))).
Proof.
  unfold Write. cbn [fst data length set_data set_length].
  rewrite !Write_appends, <- app_assoc, length_app.
  unfold set_length, set_data.
  cbn [formatTag channels samplesPerSec avgBytesPerSec blockAlign bitsPerSample
       length data offset].
  f_equal. unfold uint32. rewrite Nat2Z.inj_add.
  change (2 ^ 32) with 4294967296. lia.
Qed.

(** ** Reading *)

Lemma set_offset_same (v : File) : set_offset v (offset v) = v.
Proof. destruct v; reflexivity. Qed.

(** X6. Where a [Read] has nothing to do it touches nothing, on every File,
    one whose data is shorter than [length] included: with an empty [p] it
    returns [(0, nil)], and once [offset >= length] a [Read] into a non-empty
    [p] returns [(0, io.EOF)]; either way the File and [p] are unchanged. *)
Theorem Read_nothing_to_do (v : File) (p : list byte) :
  (p = [] -> Read v p = Ok (v, [], 0, None)) /\
  (p <> [] -> length v <= offset v -> Read v p = Ok (v, p, 0, Some EOF)).
Proof.
  split.
  - intros ->. unfold Read. cbn [Read_loop bind]. now rewrite set_offset_same.
  - intros Hp Hend. unfold Read, Length. destruct p as [|x p]; [contradiction|].
    cbn [Read_loop].
    destruct (Z.geb_spec (offset v) (length v)); [|lia].
    cbn [bind]. now rewrite set_offset_same.
Qed.

Lemma Read_nothing_to_do_witness :
  Read truncated_file [] = Ok (truncated_file, [], 0, None) /\
  Read cd_file [x07; x07] = Ok (cd_file, [x07; x07], 0, Some EOF).
Proof.
  split.
  - apply (proj1 (Read_nothing_to_do truncated_file [])). reflexivity.
  - apply (proj2 (Read_nothing_to_do cd_file [x07; x07])); [discriminate|].
    vm_compute. discriminate.
Defined.






Lemma Reads_spec_witness :
  exists v' errs,
    Reads pcm_file [1; 0; 5]%nat = Ok (v', [x00; x01], errs) /\
    offset v' = 2 /\ (In (Some EOF) errs <-> (2 < 6)%nat).
Proof.
  destruct (Reads_spec [1; 0; 5]%nat pcm_file 0 eq_refl) as (v' & errs & H).
  - vm_compute. split; discriminate.
  - exists v', errs. exact H.
Defined.

(** ** Decoding short, long and mislabelled buffers *)

Lemma skipn_short (s : list byte) (n : nat) : (len s <= n)%nat -> skipn n s = [].
Proof. apply skipn_all2. Qed.

Lemma SectionReader_beyond (s : list byte) (off n : Z) :
  (len s <= Z.to_nat off)%nat -> SectionReader s off n = [].
Proof.
  intros H. unfold SectionReader. rewrite skipn_short by exact H. apply firstn_nil.
Qed.

(** X9. A buffer too short to hold a format tag (fewer than 22 bytes, the
    empty buffer included) is never reported as such.  Decoded into a
    destination whose tag is already PCM or EXTENSIBLE, [Unmarshal] returns
    nil and only empties [data]: the header fields, [length] and the offset
    stay as they were.  Decoded into any other destination, a fresh [File{}]
    included, it returns the unsupported-format-tag error for the
    destination's own tag and changes nothing.  A nil destination gives the
    nil-stream error. *)
Theorem Unmarshal_short_stream (s : list byte) (audio : File) :
  (len s < 22)%nat ->
  (formatTag audio = WAVE_FORMAT_PCM \/ formatTag audio = WAVE_FORMAT_EXTENSIBLE ->
   Unmarshal s (Some audio) = (Some (set_data audio []), None)) /\
  (formatTag audio <> WAVE_FORMAT_PCM -> formatTag audio <> WAVE_FORMAT_EXTENSIBLE ->
   Unmarshal s (Some audio)
   = (Some audio, Some (ErrUnsupportedFormatTag (formatTag audio)))) /\
  Unmarshal s None = (None, Some ErrNilStream).
Proof.
  intros Hlen. split; [|split; [|reflexivity]].
  - intros Htag. unfold Unmarshal.
    repeat (rewrite Read_uint_outside by (reflexivity || lia || (cbn; lia)));
    cbn [formatTag channels samplesPerSec avgBytesPerSec blockAlign bitsPerSample
         length data offset set_formatTag set_channels set_samplesPerSec
         set_avgBytesPerSec set_blockAlign set_bitsPerSample set_length set_data
         set_offset].
    rewrite !SectionReader_beyond by (cbn; lia).
    destruct audio as [tag c r a b bi l d o]. cbn [formatTag] in Htag |- *.
    destruct Htag as [-> | ->]; reflexivity.
  - intros Hp He. unfold Unmarshal.
    rewrite Read_uint_outside by (reflexivity || lia || (cbn; lia)).
    cbn [formatTag set_formatTag].
    destruct (Z.eqb_spec (formatTag audio) WAVE_FORMAT_PCM); [contradiction|].
    destruct (Z.eqb_spec (formatTag audio) WAVE_FORMAT_EXTENSIBLE); [contradiction|].
    cbn [negb orb]. destruct audio; reflexivity.
Qed.

Lemma Unmarshal_short_stream_witness :
  Unmarshal [] (Some pcm_file)
  = (Some (mkFile 1 1 44100 88200 2 16 2 [] 0), None) /\
  Unmarshal [] (Some File_zero) = (Some File_zero, Some (ErrUnsupportedFormatTag 0)).
Proof.
  split.
  - apply (proj1 (Unmarshal_short_stream [] pcm_file ltac:(cbn; lia))).
    left. reflexivity.
  - apply (proj1 (proj2 (Unmarshal_short_stream [] File_zero ltac:(cbn; lia))));
      discriminate.
Defined.

(** X10. The payload [Unmarshal] stores is whatever part of the declared
    payload the buffer holds, and [length] is always the declared length.
    For a buffer that holds the whole header (44 bytes with a PCM tag, 80
    with an EXTENSIBLE tag), [Unmarshal] succeeds, [data] is the first
    [length] bytes after the header or all of them if there are fewer, so
    bytes past the declared payload are dropped and a short buffer yields a
    short [data]; the destination's read offset is not reset. *)
Theorem Unmarshal_payload (s : list byte) (audio : File) :
  (uint_at s 20 2 = WAVE_FORMAT_PCM -> (44 <= len s)%nat ->
   exists f, Unmarshal s (Some audio) = (Some f, None) /\
     length f = uint_at s 40 4 /\
     data f = firstn (Z.to_nat (uint_at s 40 4)) (skipn 44 s) /\
     Z.of_nat (len (data f)) = Z.min (uint_at s 40 4) (Z.of_nat (len s) - 44) /\
     offset f = offset audio) /\
  (uint_at s 20 2 = WAVE_FORMAT_EXTENSIBLE -> (80 <= len s)%nat ->
   exists f, Unmarshal s (Some audio) = (Some f, None) /\
     length f = uint_at s 76 4 /\
     data f = firstn (Z.to_nat (uint_at s 76 4)) (skipn 80 s) /\
     Z.of_nat (len (data f)) = Z.min (uint_at s 76 4) (Z.of_nat (len s) - 80) /\
     offset f = offset audio).
Proof.
  split; intros Htag Hlen; unfold Unmarshal; read_fields; rewrite Htag.
  - change (WAVE_FORMAT_PCM =? WAVE_FORMAT_PCM) with true. cbn [negb orb].
    read_fields. eexists. split; [reflexivity|].
    cbn [length data offset set_data set_length]. unfold SectionReader.
    change (WAVE_FORMAT_PCM =? WAVE_FORMAT_PCM) with true.
    change (WAVE_FORMAT_EXTENSIBLE =? WAVE_FORMAT_PCM) with false.
    change (WAVE_FORMAT_EXTENSIBLE =? WAVE_FORMAT_EXTENSIBLE) with true.
    cbv iota.
    change (Z.to_nat 44) with 44%nat.
    split; [reflexivity|]. split; [reflexivity|]. split; [|reflexivity].
    rewrite length_firstn, length_skipn.
    pose proof (uint_at_4_range s 40 ltac:(lia)). lia.
  - change (WAVE_FORMAT_EXTENSIBLE =? WAVE_FORMAT_PCM) with false.
    change (WAVE_FORMAT_EXTENSIBLE =? WAVE_FORMAT_EXTENSIBLE) with true.
    cbn [negb orb]. read_fields. eexists. split; [reflexivity|].
    cbn [length data offset set_data set_length]. unfold SectionReader.
    change (WAVE_FORMAT_PCM =? WAVE_FORMAT_PCM) with true.
    change (WAVE_FORMAT_EXTENSIBLE =? WAVE_FORMAT_PCM) with false.
    change (WAVE_FORMAT_EXTENSIBLE =? WAVE_FORMAT_EXTENSIBLE) with true.
    cbv iota.
    change (Z.to_nat 80) with 80%nat.
    split; [reflexivity|]. split; [reflexivity|]. split; [|reflexivity].
    rewrite length_firstn, length_skipn.
    pose proof (uint_at_4_range s 76 ltac:(lia)). lia.
Qed.

Lemma Unmarshal_payload_witness :
  exists f, Unmarshal (pcm_stream ++ [xaa; xbb]) (Some (set_offset File_zero 7))
            = (Some f, None) /\
            length f = 2 /\ data f = [x00; x01] /\ offset f = 7.
Proof.
  destruct (proj1 (Unmarshal_payload (pcm_stream ++ [xaa; xbb])
                     (set_offset File_zero 7)) eq_refl ltac:(vm_compute; lia))
    as (f & HU & Hl & Hd & _ & Ho).
  exists f. repeat split; assumption.
Defined.

Lemma firstn_skipn_firstn (l : list byte) (a n c : nat) :
  (a + n <= c)%nat -> firstn n (skipn a (firstn c l)) = firstn n (skipn a l).
Proof.
  intros H. rewrite skipn_firstn_comm, firstn_firstn.
  replace (Nat.min n (c - a)) with n by lia. reflexivity.
Qed.

Lemma SectionReader_header (s : list byte) (off n : Z) :
  20 <= off -> 0 <= n -> off + n <= 36 ->
  SectionReader s off n
  = firstn (Z.to_nat n) (skipn (Z.to_nat off - 20) (firstn 16 (skipn 20 s))).
Proof.
  intros Ho Hn H. unfold SectionReader.
  rewrite firstn_skipn_firstn by lia. rewrite skipn_skipn.
  replace (Z.to_nat off - 20 + 20)%nat with (Z.to_nat off) by lia. reflexivity.
Qed.

Lemma SectionReader_body (s : list byte) (off n : Z) :
  40 <= off ->
  SectionReader s off n
  = firstn (Z.to_nat n) (skipn (Z.to_nat off - 40) (skipn 40 s)).
Proof.
  intros Ho. unfold SectionReader. rewrite skipn_skipn.
  replace (Z.to_nat off - 40 + 40)%nat with (Z.to_nat off) by lia. reflexivity.
Qed.

(** X11. [Unmarshal] never looks at the "RIFF" tag, the total size, the
    "WAVEfmt " tag, the format-chunk size or the "data" tag: two buffers
    that agree on bytes 20 to 35 and from byte 40 on decode, into the same
    destination, to the same File with the same error, whatever their first
    20 bytes and bytes 36 to 39 are and however long they are. *)
Theorem Unmarshal_ignores_tags (s1 s2 : list byte) (audio : option File) :
  firstn 16 (skipn 20 s1) = firstn 16 (skipn 20 s2) ->
  skipn 40 s1 = skipn 40 s2 ->
  Unmarshal s1 audio = Unmarshal s2 audio.
Proof.
  intros Hh Hb. destruct audio as [audio|]; [|reflexivity].
  assert (Eh : forall off n, 20 <= off -> 0 <= n -> off + n <= 36 ->
                             SectionReader s1 off n = SectionReader s2 off n).
  { intros off n H1 H2 H3. rewrite !SectionReader_header by assumption.
    now rewrite Hh. }
  assert (Eb : forall off n, 40 <= off ->
                             SectionReader s1 off n = SectionReader s2 off n).
  { intros off n H1. rewrite !SectionReader_body by assumption. now rewrite Hb. }
  pose proof (Eh 20 2 ltac:(lia) ltac:(lia) ltac:(lia)) as E20.
  pose proof (Eh 22 2 ltac:(lia) ltac:(lia) ltac:(lia)) as E22.
  pose proof (Eh 24 4 ltac:(lia) ltac:(lia) ltac:(lia)) as E24.
  pose proof (Eh 28 4 ltac:(lia) ltac:(lia) ltac:(lia)) as E28.
  pose proof (Eh 32 2 ltac:(lia) ltac:(lia) ltac:(lia)) as E32.
  pose proof (Eh 34 2 ltac:(lia) ltac:(lia) ltac:(lia)) as E34.
  pose proof (Eb 40 4 ltac:(lia)) as E40.
  pose proof (Eb 76 4 ltac:(lia)) as E76.
  pose proof (fun n => Eb 44 n ltac:(lia)) as E44.
  pose proof (fun n => Eb 80 n ltac:(lia)) as E80.
  unfold Unmarshal.
  rewrite E20, E22, E24, E28, E32, E34, E40, E76, !E44, !E80. reflexivity.
Qed.

Lemma Unmarshal_ignores_tags_witness :
  Unmarshal (repeat x00 20 ++ skipn 20 (firstn 36 pcm_stream) ++ repeat xff 4
             ++ skipn 40 pcm_stream) (Some File_zero)
  = (Some pcm_file, None).
Proof.
  rewrite (Unmarshal_ignores_tags _ pcm_stream (Some File_zero)); reflexivity.
Defined.

(** ** Counting samples *)

(** X12. [Samples()] divides twice and either division can panic: on a File
    with fields of their Go types it panics with a divide by zero exactly
    when [channels] is 0 or [blockAlign] is smaller than [channels] (so
    [blockAlign / channels] is 0), and otherwise returns
    [length / (blockAlign / channels)]. *)
Theorem Samples_outcome (v : File) :
  File_typed v ->
  (channels v = 0 \/ blockAlign v < channels v -> Samples v = Panic DivideByZero) /\
  (channels v <> 0 -> channels v <= blockAlign v ->
   Samples v = Ok (length v / (blockAlign v / channels v))).
Proof.
  intros (_ & Hc & _ & _ & Hb & _ & Hl & _). unfold is_uint16, is_uint32 in *.
  unfold Samples, go_div. split.
  - intros [H0 | Hlt].
    + rewrite H0. reflexivity.
    + destruct (Z.eqb_spec (channels v) 0); [reflexivity|]. cbn [bind].
      rewrite Z.quot_div_nonneg by lia.
      rewrite Z.div_small by lia. reflexivity.
  - intros H0 Hle.
    destruct (Z.eqb_spec (channels v) 0); [contradiction|]. cbn [bind].
    rewrite Z.quot_div_nonneg by lia.
    assert (0 < blockAlign v / channels v)
      by (apply Z.div_str_pos; lia).
    destruct (Z.eqb_spec (blockAlign v / channels v) 0); [lia|].
    rewrite Z.quot_div_nonneg by lia. reflexivity.
Qed.

Lemma cd_file_typed : File_typed cd_file.
Proof.
  unfold File_typed, is_uint16, is_uint32, is_int. cbn. lia.
Qed.

Lemma Samples_outcome_witness :
  Samples (mkFile 1 4 44100 88200 2 16 8 [] 0) = Panic DivideByZero /\
  Samples pcm_file = Ok (2 / (2 / 1)).
Proof.
  split.
  - apply (proj1 (Samples_outcome (mkFile 1 4 44100 88200 2 16 8 [] 0)
             ltac:(unfold File_typed, is_uint16, is_uint32, is_int; cbn; lia))).
    right. reflexivity.
  - apply (proj2 (Samples_outcome pcm_file pcm_file_typed)).
    + discriminate.
    + vm_compute. discriminate.
Defined.

(** X13. On the File that [New(rate, bits, channels)] returns for at least
    one channel and a depth of at least 8 bits with [channels * bits] below
    2^16, after a [Write] of [b] (shorter than 2^32 bytes): [Samples()] is
    [len(b) / (bits / 8)], the count of samples over all channels, and
    [Duration()] is [len(b) / (channels * (bits / 8))] seconds. *)
Theorem Samples_after_New_Write (rate bits ch : Z) (f : File) (b : list byte) :
  New rate bits ch = Ok f ->
  1 <= ch -> 8 <= bits -> ch * bits < 2 ^ 16 ->
  Z.of_nat (len b) < 2 ^ 32 ->
  Samples (fst (fst (Write f b))) = Ok (Z.of_nat (len b) / (bits / 8)) /\
  Duration (fst (fst (Write f b)))
  = Ok (Z.of_nat (len b) / (ch * (bits / 8)) * Second).
Proof.
  intros HN Hch Hbits Hfit Hb.
  destruct (New_cases rate bits ch) as [[_ HE] | [Hrem [f' [HO H]]]];
    rewrite HN in *; [discriminate|].
  injection HO as <-.
  destruct H as (_ & Hc & Hbi & _ & Hba & _ & Hl & Hd & _).
  assert (Hbr : bits < 2 ^ 16) by nia.
  unfold uint16 in Hc, Hbi, Hba.
  rewrite Z.mod_small in Hc by lia. rewrite Z.mod_small in Hbi by lia.
  rewrite (Z.mod_small ch), (Z.mod_small bits), Z.mod_small in Hba by lia.
  rewrite Z.quot_div_nonneg in Hba by lia.
  assert (Hbits8 : bits = 8 * (bits / 8)).
  { rewrite Z.rem_mod_nonneg in Hrem by lia. lia. }
  assert (Hbaeq : blockAlign f = ch * (bits / 8)) by (rewrite Hba; nia).
  assert (Hper : 0 < bits / 8) by lia.
  unfold Write. cbn [fst]. unfold Samples, Duration, Length, BlockAlign, go_div.
  cbn [channels blockAlign length set_data set_length]. rewrite Hc, Hl, Hbaeq.
  assert (Hlen : uint32 (0 + uint32 (Z.of_nat (len b))) = Z.of_nat (len b)).
  { unfold uint32. rewrite Z.add_0_l, Z.mod_mod by lia. apply Z.mod_small. lia. }
  rewrite Hlen.
  destruct (Z.eqb_spec ch 0); [lia|]. cbn [bind].
  rewrite (Z.quot_div_nonneg (ch * (bits / 8)) ch) by nia.
  replace (ch * (bits / 8) / ch) with (bits / 8) by (rewrite Z.mul_comm, Z.div_mul; lia).
  destruct (Z.eqb_spec (bits / 8) 0); [lia|].
  destruct (Z.eqb_spec (ch * (bits / 8)) 0); [nia|]. cbn [bind].
  rewrite !Z.quot_div_nonneg by nia.
  split; [reflexivity|]. f_equal. apply int64_small.
  assert (0 <= Z.of_nat (len b) / (ch * (bits / 8)) < 2 ^ 32).
  { split; [apply Z.div_pos; nia|]. apply Z.div_lt_upper_bound; nia. }
  unfold Second. lia.
Qed.

Lemma Samples_after_New_Write_witness :
  Samples (fst (fst (Write cd_file [x01; x02; x03; x04; x05; x06; x07; x08])))
  = Ok (8 / (16 / 8)) /\
  Duration (fst (fst (Write cd_file [x01; x02; x03; x04; x05; x06; x07; x08])))
  = Ok (8 / (2 * (16 / 8)) * Second).
Proof.
  apply (Samples_after_New_Write 44100 16 2 cd_file
           [x01; x02; x03; x04; x05; x06; x07; x08] eq_refl); vm_compute;
    (reflexivity || discriminate).
Defined.

(** ** Shape of the converted samples *)

Lemma Read_slice_length (r : list byte) (w : nat) (conv : Z -> Z) (old : list Z) :
  len (binary.Read_slice r w conv old) = len old.
Proof.
  unfold binary.Read_slice. destruct (_ <? _)%nat; [reflexivity|].
  now rewrite length_map, elems_length.
Qed.

Lemma make_Ok {A : Type} (zero : A) (n : Z) (l : list A) :
  make zero n = Ok l -> 0 <= n /\ l = repeat zero (Z.to_nat n).
Proof.
  unfold make. destruct (Z.ltb_spec n 0); [discriminate|].
  intros H'. injection H' as <-. split; [assumption | reflexivity].
Qed.

Lemma int32_in_int32 (z : Z) : in_int32 (int32 z).
Proof. unfold in_int32, int32. lia. Qed.

Lemma Forall_map_int32 (f : Z -> Z) (l : list Z) :
  Forall in_int32 (map (fun x => int32 (f x)) l).
Proof.
  induction l as [|x l IH]; cbn [map]; constructor;
    [apply int32_in_int32 | exact IH].
Qed.

Lemma Forall_Read_slice_int32 (r : list byte) (w n : nat) :
  Forall in_int32 (binary.Read_slice r w int32 (repeat 0 n)).
Proof.
  unfold binary.Read_slice. destruct (_ <? _)%nat.
  - apply Forall_forall. intros x Hx. apply repeat_spec in Hx. subst x.
    unfold in_int32. lia.
  - apply (Forall_map_int32 (fun x => x)).
Qed.

(** When [Int32s] returns at a supported depth, it returns [Samples()]
    values. *)
Lemma Int32s_Ok_length (v : File) (out : list Z) :
  BitsPerSample v = 8 \/ BitsPerSample v = 16 \/
  BitsPerSample v = 24 \/ BitsPerSample v = 32 ->
  Int32s v = Ok out ->
  Samples v = Ok (Z.of_nat (len out)) /\ Forall in_int32 out.
Proof.
  intros Hb. unfold Int32s.
  destruct Hb as [-> | [-> | [-> | ->]]]; cbn [Z.eqb Pos.eqb];
    unfold fromS8ToInt32s, fromS16ToInt32s, fromS24ToInt32s, fromS32ToInt32s;
    destruct (Samples v) as [n | e | q]; cbn [bind]; try discriminate.
  - destruct (make 0 n) as [s | e | q] eqn:Em; cbn [bind]; try discriminate.
    apply make_Ok in Em. destruct Em as [Hn ->].
    intros H. injection H as <-.
    rewrite length_map, Read_slice_length, repeat_length, Z2Nat.id by lia.
    split; [reflexivity | apply Forall_map_int32].
  - destruct (make 0 n) as [s | e | q] eqn:Em; cbn [bind]; try discriminate.
    apply make_Ok in Em. destruct Em as [Hn ->].
    intros H. injection H as <-.
    rewrite length_map, Read_slice_length, repeat_length, Z2Nat.id by lia.
    split; [reflexivity | apply Forall_map_int32].
  - destruct (make x00 (n * 4)) as [d | e | q]; cbn [bind]; try discriminate.
    destruct (make 0 n) as [s | e | q] eqn:Em; cbn [bind]; try discriminate.
    apply make_Ok in Em. destruct Em as [Hn ->].
    destruct (fromS24_loop _ _ _ _) as [d' | e | q]; cbn [bind]; try discriminate.
    intros H. injection H as <-.
    rewrite length_map, Read_slice_length, repeat_length, Z2Nat.id by lia.
    split; [reflexivity | apply Forall_map_int32].
  - destruct (make 0 n) as [s | e | q] eqn:Em; cbn [bind]; try discriminate.
    apply make_Ok in Em. destruct Em as [Hn ->].
    intros H. injection H as <-.
    rewrite Read_slice_length, repeat_length, Z2Nat.id by lia.
    split; [reflexivity | apply Forall_Read_slice_int32].
Qed.

(** X14. Whatever [Int32s] returns, on any File: at a depth of 8, 16, 24 or
    32 bits the slice has exactly [Samples()] elements, at any other depth
    it is empty, and every element is a 32-bit signed value. *)
Theorem Int32s_returns (v : File) (out : list Z) :
  Int32s v = Ok out ->
  Forall in_int32 out /\
  (BitsPerSample v = 8 \/ BitsPerSample v = 16 \/
   BitsPerSample v = 24 \/ BitsPerSample v = 32 ->
   Samples v = Ok (Z.of_nat (len out))) /\
  (BitsPerSample v <> 8 -> BitsPerSample v <> 16 ->
   BitsPerSample v <> 24 -> BitsPerSample v <> 32 -> out = []).
Proof.
  intros HI. split; [|split].
  - destruct (Z.eq_dec (BitsPerSample v) 8) as [H8 | H8];
      [apply (Int32s_Ok_length v out); auto|].
    destruct (Z.eq_dec (BitsPerSample v) 16) as [H16 | H16];
      [apply (Int32s_Ok_length v out); auto|].
    destruct (Z.eq_dec (BitsPerSample v) 24) as [H24 | H24];
      [apply (Int32s_Ok_length v out); auto|].
    destruct (Z.eq_dec (BitsPerSample v) 32) as [H32 | H32];
      [apply (Int32s_Ok_length v out); auto|].
    unfold Int32s in HI.
    destruct (Z.eqb_spec (BitsPerSample v) 8); [contradiction|].
    destruct (Z.eqb_spec (BitsPerSample v) 16); [contradiction|].
    destruct (Z.eqb_spec (BitsPerSample v) 24); [contradiction|].
    destruct (Z.eqb_spec (BitsPerSample v) 32); [contradiction|].
    injection HI as <-. constructor.
  - intros Hb. apply (Int32s_Ok_length v out Hb HI).
  - intros H8 H16 H24 H32. unfold Int32s in HI.
    destruct (Z.eqb_spec (BitsPerSample v) 8); [contradiction|].
    destruct (Z.eqb_spec (BitsPerSample v) 16); [contradiction|].
    destruct (Z.eqb_spec (BitsPerSample v) 24); [contradiction|].
    destruct (Z.eqb_spec (BitsPerSample v) 32); [contradiction|].
    injection HI as <-. reflexivity.
Qed.

Lemma Int32s_returns_witness :
  Forall in_int32 [16777216; -16777216] /\
  Samples s8_file = Ok (Z.of_nat (len [16777216; -16777216])).
Proof.
  destruct (Int32s_returns s8_file [16777216; -16777216] eq_refl) as (HF & HS & _).
  split; [exact HF | apply HS; left; reflexivity].
Defined.

(** ** Float samples *)

Lemma Float64s_loop_spec (pre post : list Z) :
  Float64s_loop (pre ++ post) (Z.of_nat (len pre)) (len post)
  = Ok (map scaled_float64 post).
Proof.
  revert pre. induction post as [|x post IH]; intros pre;
    cbn [Float64s_loop List.length map]; [reflexivity|].
  unfold load. destruct (Z.ltb_spec (Z.of_nat (len pre)) 0); [lia|].
  rewrite Nat2Z.id, nth_error_app2, Nat.sub_diag by lia. cbn [nth_error bind].
  replace (Z.of_nat (len pre) + 1) with (Z.of_nat (len (pre ++ [x])))
    by (rewrite length_app; cbn [List.length]; lia).
  replace (pre ++ x :: post) with ((pre ++ [x]) ++ post)
    by (rewrite <- app_assoc; reflexivity).
  rewrite IH. reflexivity.
Qed.

(** X15. At a depth of 8, 16, 24 or 32 bits, whenever [Int32s] returns a
    slice, [Float64s] returns the slice of the same length whose elements are
    those 32-bit values divided by 2^31, each exactly (no rounding), hence
    each in [-1, 1). *)
Theorem Float64s_of_Int32s (v : File) (out : list Z) :
  BitsPerSample v = 8 \/ BitsPerSample v = 16 \/
  BitsPerSample v = 24 \/ BitsPerSample v = 32 ->
  Int32s v = Ok out ->
  Float64s v = Ok (map scaled_float64 out) /\
  Forall (fun y => exponent y = -31 /\ - 2 ^ 31 <= mantissa y < 2 ^ 31)
         (map scaled_float64 out).
Proof.
  intros Hb HI. destruct (Int32s_Ok_length v out Hb HI) as [HS HF]. split.
  - unfold Float64s. rewrite HS, HI. cbn [bind]. unfold make.
    destruct (Z.ltb_spec (Z.of_nat (len out)) 0); [lia|]. cbn [bind].
    rewrite Nat2Z.id. exact (Float64s_loop_spec [] out).
  - apply Forall_map. revert HF. apply Forall_impl.
    intros x Hx. split; [reflexivity | exact Hx].
Qed.

Lemma Float64s_of_Int32s_witness :
  Float64s s8_file = Ok [mkFloat64 16777216 (-31); mkFloat64 (-16777216) (-31)].
Proof.
  apply (proj1 (Float64s_of_Int32s s8_file [16777216; -16777216]
                  (or_introl eq_refl) eq_refl)).
Defined.

(** X16. At any other depth [Float64s] does not follow [Int32s] in
    returning an empty slice: [Int32s] gives it no element while its loop
    still runs [Samples()] times, so when [Samples()] returns a positive
    count [Float64s] panics with an index out of range, and it returns the
    empty slice only when [Samples()] is 0. *)
Theorem Float64s_unsupported_depth (v : File) (n : Z) :
  BitsPerSample v <> 8 -> BitsPerSample v <> 16 ->
  BitsPerSample v <> 24 -> BitsPerSample v <> 32 ->
  Samples v = Ok n ->
  (n = 0 -> Float64s v = Ok []) /\
  (0 < n -> Float64s v = Panic IndexOutOfRange).
Proof.
  intros H8 H16 H24 H32 HS.
  assert (HI : Int32s v = Ok []).
  { unfold Int32s.
    destruct (Z.eqb_spec (BitsPerSample v) 8); [contradiction|].
    destruct (Z.eqb_spec (BitsPerSample v) 16); [contradiction|].
    destruct (Z.eqb_spec (BitsPerSample v) 24); [contradiction|].
    destruct (Z.eqb_spec (BitsPerSample v) 32); [contradiction|].
    reflexivity. }
  unfold Float64s. rewrite HS, HI. cbn [bind]. unfold make. split.
  - intros ->. reflexivity.
  - intros Hn. destruct (Z.ltb_spec n 0); [lia|]. cbn [bind].
    destruct (Z.to_nat n) as [|k] eqn:E; [lia|]. reflexivity.
Qed.

Lemma Float64s_unsupported_depth_witness :
  Int32s s12_file = Ok [] /\ Float64s s12_file = Panic IndexOutOfRange.
Proof.
  split; [reflexivity|].
  apply (proj2 (Float64s_unsupported_depth s12_file 3
                  ltac:(discriminate) ltac:(discriminate)
                  ltac:(discriminate) ltac:(discriminate) eq_refl)).
  reflexivity.
Defined.

(** ** Payloads that do not fit the header *)

Lemma Read_slice_short (r : list byte) (w : nat) (conv : Z -> Z) (n : nat) :
  (len r < n * w)%nat ->
  binary.Read_slice r w conv (repeat 0 n) = repeat 0 n.
Proof.
  intros H. unfold binary.Read_slice. rewrite repeat_length.
  destruct (Nat.ltb_spec (len r) (n * w)); [reflexivity | lia].
Qed.

(** X17. When [data] holds fewer bytes than the [Samples()] samples of the
    File need at 8, 16 or 32 bits, [Int32s] reports nothing: it returns
    [Samples()] zeros, because the one [binary.Read] into the sample slice
    fails for lack of bytes before decoding any and its error is dropped. *)
Theorem Int32s_short_data_zeros (v : File) (n : Z) :
  File_typed v ->
  BitsPerSample v = 8 \/ BitsPerSample v = 16 \/ BitsPerSample v = 32 ->
  Samples v = Ok n ->
  Z.of_nat (len (data v)) < n * (BitsPerSample v / 8) ->
  Int32s v = Ok (repeat 0 (Z.to_nat n)).
Proof.
  intros Ht Hb HS Hd.
  destruct (Samples_typed v n Ht HS) as (_ & _ & _ & Hn).
  unfold Int32s.
  destruct Hb as [Hb | [Hb | Hb]]; rewrite Hb in *; cbn [Z.eqb Pos.eqb];
    unfold fromS8ToInt32s, fromS16ToInt32s, fromS32ToInt32s;
    rewrite HS; cbn [bind]; unfold make;
    (destruct (Z.ltb_spec n 0); [lia|]); cbn [bind].
  - change (8 / 8) with 1 in Hd. rewrite Read_slice_short by lia.
    rewrite map_repeat. reflexivity.
  - change (16 / 8) with 2 in Hd. rewrite Read_slice_short by lia.
    rewrite map_repeat. reflexivity.
  - change (32 / 8) with 4 in Hd. rewrite Read_slice_short by lia.
    reflexivity.
Qed.

Lemma half_file_typed : File_typed half_file.
Proof.
  unfold File_typed, is_uint16, is_uint32, is_int. cbn. lia.
Qed.

Lemma Int32s_short_data_zeros_witness : Int32s half_file = Ok [0; 0].
Proof.
  apply (Int32s_short_data_zeros half_file 2 half_file_typed
           (or_intror (or_introl eq_refl)) eq_refl).
  vm_compute. reflexivity.
Defined.

Lemma Int32s_24_bit_general_witness :
  exists out, Int32s s24_file = Ok out /\ Z.of_nat (len out) = 1 /\
    forall i, (i < len out)%nat ->
              nth i out 0 = int32 (sample24 (data s24_file) i * 2 ^ 16).
Proof.
  apply (Int32s_24_bit_general s24_file 1 s24_file_typed eq_refl eq_refl eq_refl).
  vm_compute. discriminate.
Defined.

Lemma bind_assoc {A B C : Type} (m : outcome A) (f : A -> outcome B)
  (g : B -> outcome C) :
  bind (bind m f) g = bind m (fun x => bind (f x) g).
Proof. destruct m; reflexivity. Qed.

Lemma fromS24_loop_app (t u : nat) (src dst : list byte) (i : Z) :
  fromS24_loop (t + u) src dst i
  = bind (fromS24_loop t src dst i)
         (fun d => fromS24_loop u src d (i + 3 * Z.of_nat t)).
Proof.
  revert dst i. induction t as [|t IH]; intros dst i.
  - cbn [Nat.add fromS24_loop bind]. f_equal. lia.
  - cbn [Nat.add fromS24_loop]. rewrite bind_assoc.
    destruct (fromS24_step src dst i) as [d | e | q]; cbn [bind]; try reflexivity.
    rewrite IH.
    replace (i + 3 * Z.of_nat (S t)) with (i + 3 + 3 * Z.of_nat t) by lia.
    reflexivity.
Qed.

Lemma fromS24_step_dst_short (src dst : list byte) (i : Z) :
  Z.of_nat (len dst) <= Z.quot i 3 + 1 + i ->
  fromS24_step src dst i = Panic IndexOutOfRange.
Proof.
  intros H. unfold fromS24_step, load.
  destruct (i <? 0); [reflexivity|].
  destruct (nth_error src (Z.to_nat i)); [|reflexivity]. cbn [bind].
  unfold store.
  destruct (Z.leb_spec (Z.of_nat (len dst)) (Z.quot i 3 + 1 + i)); [|lia].
  rewrite orb_true_r. reflexivity.
Qed.

(** X19. A 24-bit File with 3 bytes per sample whose [length] is not a
    multiple of 3 makes [Int32s] panic with an index out of range, even
    though [data] holds all [length] bytes: the loop takes one turn for the
    incomplete last sample and stores past the [Samples() * 4] bytes of its
    buffer. *)
Theorem Int32s_24_bit_ragged_length_panics (v : File) (n : Z) :
  File_typed v ->
  BitsPerSample v = 24 ->
  blockAlign v / channels v = 3 ->
  Samples v = Ok n ->
  length v mod 3 <> 0 ->
  length v <= Z.of_nat (len (data v)) ->
  Int32s v = Panic IndexOutOfRange.
Proof.
  intros Ht Hb Hper HS Hrag Hd.
  destruct (Samples_typed v n Ht HS) as (_ & _ & Hn & Hn0).
  rewrite Hper in Hn.
  unfold Int32s. rewrite Hb. cbn [Z.eqb Pos.eqb].
  unfold fromS24ToInt32s, Length. rewrite HS. cbn [bind]. unfold make.
  destruct (Z.ltb_spec (n * 4) 0); [lia|].
  destruct (Z.ltb_spec n 0); [lia|]. cbn [bind].
  set (k := Z.to_nat n).
  replace (Z.to_nat (n * 4)) with (4 * k)%nat by lia.
  replace (Z.to_nat ((length v + 2) / 3)) with (k + 1)%nat by lia.
  rewrite fromS24_loop_app.
  pose proof (fromS24_loop_spec (data v) k 0 [] eq_refl ltac:(lia)) as Hloop.
  change (3 * 0)%nat with 0%nat in Hloop. cbn [app skipn] in Hloop.
  change (Z.of_nat 0) with 0 in Hloop.
  rewrite Hloop. cbn [bind fromS24_loop].
  rewrite fromS24_step_dst_short; [reflexivity|].
  rewrite widen24_length, Z.quot_div_nonneg by lia. lia.
Qed.

Lemma ragged_file_typed : File_typed ragged_file.
Proof.
  unfold File_typed, is_uint16, is_uint32, is_int. cbn. lia.
Qed.

Lemma Int32s_24_bit_ragged_length_panics_witness :
  Int32s ragged_file = Panic IndexOutOfRange.
Proof.
  apply (Int32s_24_bit_ragged_length_panics ragged_file 1 ragged_file_typed
           eq_refl eq_refl eq_refl); vm_compute; discriminate.
Defined.

(** ** Operations in sequence *)



(** X21. A File that [New] returns can always be encoded, except in one
    case: [Marshal] never returns an error for it; with [bits <= 16] it
    returns the 44-byte PCM header; with [bits > 16] it returns the 80-byte
    EXTENSIBLE header unless the block align [New] computed is 0
    ([uint16(channels * bits) < 8], as for 0 channels), where it panics with
    a divide by zero. *)
Theorem Marshal_after_New (rate bits ch : Z) (f : File) :
  New rate bits ch = Ok f ->
  no_error (Marshal f) /\
  (bits <= 16 -> exists s, Marshal f = Ok s /\ len s = 44%nat) /\
  (bits > 16 -> 8 <= uint16 (uint16 ch * uint16 bits) ->
   exists s, Marshal f = Ok s /\ len s = 80%nat) /\
  (bits > 16 -> uint16 (uint16 ch * uint16 bits) < 8 ->
   Marshal f = Panic DivideByZero).
Proof.
  intros HN.
  destruct (New_cases rate bits ch) as [[_ HE] | [_ [f' [HO H]]]];
    rewrite HN in *; [discriminate|].
  injection HO as <-. destruct H as (Ht & _ & _ & _ & Hba & _ & _ & Hd & _).
  assert (Hu : 0 <= uint16 (uint16 ch * uint16 bits)) by (unfold uint16; lia).
  rewrite Z.quot_div_nonneg in Hba by lia.
  destruct (bits >? 16) eqn:E.
  - assert (Hcase : blockAlign f = 0 \/ blockAlign f <> 0) by lia.
    repeat split; try lia.
    + intros e. destruct Hcase as [H0 | H0].
      * rewrite (Marshal_EXTENSIBLE_zero_block_align f Ht H0). discriminate.
      * rewrite (Marshal_EXTENSIBLE_layout f Ht H0). discriminate.
    + intros _ H8. eexists. split.
      * apply Marshal_EXTENSIBLE_layout; [exact Ht | lia].
      * rewrite ext_layout_length, Hd. reflexivity.
    + intros _ H8. apply Marshal_EXTENSIBLE_zero_block_align; [exact Ht | lia].
  - repeat split; try lia.
    + intros e. rewrite (Marshal_PCM_layout f Ht). discriminate.
    + intros _. eexists. split; [apply Marshal_PCM_layout; exact Ht|].
      rewrite pcm_layout_length, Hd. reflexivity.
Qed.

Lemma Marshal_after_New_witness :
  (exists s, Marshal cd_file = Ok s /\ len s = 44%nat) /\
  (exists f, New 44100 24 0 = Ok f /\ Marshal f = Panic DivideByZero).
Proof.
  split.
  - apply (proj1 (proj2 (Marshal_after_New 44100 16 2 cd_file eq_refl))). lia.
  - eexists. split; [reflexivity|].
    apply (proj2 (proj2 (proj2 (Marshal_after_New 44100 24 0 _ eq_refl))));
      vm_compute; reflexivity.
Defined.

(** ** The channel mask *)

(** X22. [getChannelMask] names exactly as many speakers as there are
    channels, or none: for every channel count the mask is 0 or has
    [channels] bits set, it is non-zero exactly for 1, 2, 4, 6 and 8
    channels, and it always fits in 11 bits. *)
Theorem getChannelMask_speakers (c : Z) :
  (getChannelMask c = 0 \/ speakers (getChannelMask c) = c) /\
  (getChannelMask c <> 0 <-> c = 1 \/ c = 2 \/ c = 4 \/ c = 6 \/ c = 8) /\
  0 <= getChannelMask c < 2 ^ 11.
Proof.
  unfold getChannelMask.
  destruct (Z.eqb_spec c 1) as [-> | H1]; [cbn; intuition (try lia; discriminate)|].
  destruct (Z.eqb_spec c 2) as [-> | H2]; [cbn; intuition (try lia; discriminate)|].
  destruct (Z.eqb_spec c 4) as [-> | H4]; [cbn; intuition (try lia; discriminate)|].
  destruct (Z.eqb_spec c 6) as [-> | H6]; [cbn; intuition (try lia; discriminate)|].
  destruct (Z.eqb_spec c 8) as [-> | H8]; [cbn; intuition (try lia; discriminate)|].
  repeat split; lia.
Qed.

(** ** When the readers and converters panic *)

Lemma load_Panic {A : Type} (s : list A) (i : Z) (q : panic) :
  load s i = Panic q -> q = IndexOutOfRange.
Proof.
  unfold load. destruct (i <? 0); [congruence|].
  destruct (nth_error s (Z.to_nat i)); [discriminate | congruence].
Qed.

Lemma Read_loop_Panic (d : list byte) (L : Z) (p : list byte) (o : Z) (q : panic) :
  Read_loop d L p o = Panic q -> q = IndexOutOfRange.
Proof.
  revert o. induction p as [|x p IH]; intros o; cbn [Read_loop]; [discriminate|].
  destruct (o >=? L); [discriminate|].
  destruct (load d o) as [b | e | q'] eqn:El; cbn [bind].
  - destruct (Read_loop d L p (o + 1)) as [[[[r m] o1] e1] | e | q'] eqn:ER;
      cbn [bind]; try discriminate.
    intros H. injection H as <-. exact (IH _ ER).
  - discriminate.
  - intros H. injection H as <-. exact (load_Panic _ _ _ El).
Qed.

(** X23. [Read] never returns without a result and panics in one way only:
    a panic of [Read] is an index out of range, and it can only happen on a
    File whose [data] holds fewer than [length] bytes or whose offset is
    negative. *)
Theorem Read_panics_only (v : File) (p : list byte) :
  no_error (Read v p) /\
  forall q, Read v p = Panic q ->
            q = IndexOutOfRange /\
            (offset v < 0 \/ Z.of_nat (len (data v)) < length v).
Proof.
  split.
  - intros e. unfold Read.
    destruct (Read_loop (data v) (Length v) p (offset v))
      as [[[[r m] o1] e1] | e' | q'] eqn:ER; cbn [bind]; try discriminate.
    exfalso. revert ER. generalize (offset v). clear.
    induction p as [|x p IH]; intros o; cbn [Read_loop]; [discriminate|].
    destruct (o >=? Length v); [discriminate|].
    destruct (load (data v) o) as [b | e | q] eqn:El; cbn [bind];
      [| exact (fun _ => no_error_load _ _ e El) | discriminate].
    destruct (Read_loop (data v) (Length v) p (o + 1))
      as [[[[r m] o1] e1] | e | q] eqn:ER; cbn [bind]; try discriminate.
    intros H. injection H as <-. exact (IH _ ER).
  - intros q HP. split.
    + unfold Read in HP.
      destruct (Read_loop (data v) (Length v) p (offset v))
        as [[[[r m] o1] e1] | e' | q'] eqn:ER; cbn [bind] in HP; try discriminate.
      injection HP as <-. exact (Read_loop_Panic _ _ _ _ _ ER).
    + destruct (Z.lt_ge_cases (offset v) 0) as [Hneg | Hpos]; [left; exact Hneg|].
      destruct (Z.lt_ge_cases (Z.of_nat (len (data v))) (length v)) as [Hs | Hd];
        [right; exact Hs|].
      exfalso.
      pose proof (Read_spec v p (Z.to_nat (offset v)) ltac:(lia) ltac:(lia)) as HR.
      cbn zeta in HR. rewrite HR in HP. discriminate.
Qed.

Lemma Read_panics_only_witness :
  IndexOutOfRange = IndexOutOfRange /\
  (offset truncated_file < 0 \/
   Z.of_nat (len (data truncated_file)) < length truncated_file).
Proof.
  exact (proj2 (Read_panics_only truncated_file [x00]) IndexOutOfRange eq_refl).
Defined.

(** X24. At 8, 16 and 32 bits the only way [Int32s] can fail is the
    division in [Samples()]: on a File with fields of their Go types it
    panics exactly as [Samples()] does when that panics, and returns a slice
    whenever [Samples()] returns, whatever [data] holds. *)
Theorem Int32s_follows_Samples (v : File) :
  File_typed v ->
  BitsPerSample v = 8 \/ BitsPerSample v = 16 \/ BitsPerSample v = 32 ->
  (forall q, Samples v = Panic q -> Int32s v = Panic q) /\
  (forall n, Samples v = Ok n -> exists out, Int32s v = Ok out).
Proof.
  intros Ht Hb. split.
  - intros q HS. unfold Int32s.
    destruct Hb as [-> | [-> | ->]]; cbn [Z.eqb Pos.eqb];
      unfold fromS8ToInt32s, fromS16ToInt32s, fromS32ToInt32s;
      rewrite HS; reflexivity.
  - intros n HS. destruct (Samples_typed v n Ht HS) as (_ & _ & _ & Hn).
    unfold Int32s.
    destruct Hb as [-> | [-> | ->]]; cbn [Z.eqb Pos.eqb];
      unfold fromS8ToInt32s, fromS16ToInt32s, fromS32ToInt32s;
      rewrite HS; cbn [bind]; unfold make;
      (destruct (Z.ltb_spec n 0); [lia|]); cbn [bind];
      eexists; reflexivity.
Qed.

Lemma Int32s_follows_Samples_witness :
  Int32s (mkFile 1 0 44100 0 0 8 0 [] 0) = Panic DivideByZero /\
  exists out, Int32s half_file = Ok out.
Proof.
  split.
  - apply (proj1 (Int32s_follows_Samples (mkFile 1 0 44100 0 0 8 0 [] 0)
             ltac:(unfold File_typed, is_uint16, is_uint32, is_int; cbn; lia)
             (or_introl eq_refl))).
    reflexivity.
  - apply (proj2 (Int32s_follows_Samples half_file half_file_typed
             (or_intror (or_introl eq_refl))) 2).
    reflexivity.
Defined.

(** ** Re-encoding a buffer that ends early *)

Lemma Unmarshal_PCM_header (s : list byte) (audio : File) :
  uint_at s 20 2 = WAVE_FORMAT_PCM -> (44 <= len s)%nat ->
  Unmarshal s (Some audio)
  = (Some (mkFile WAVE_FORMAT_PCM (uint_at s 22 2) (uint_at s 24 4) (uint_at s 28 4)
                  (uint_at s 32 2) (uint_at s 34 2) (uint_at s 40 4)
                  (field s 44 (Z.to_nat (uint_at s 40 4))) (offset audio)),
     None).
Proof.
  intros Htag H44. unfold Unmarshal. read_fields. rewrite Htag.
  change (WAVE_FORMAT_PCM =? WAVE_FORMAT_PCM) with true. cbn [negb orb].
  read_fields. reflexivity.
Qed.

Lemma Unmarshal_EXTENSIBLE_header (s : list byte) (audio : File) :
  uint_at s 20 2 = WAVE_FORMAT_EXTENSIBLE -> (80 <= len s)%nat ->
  Unmarshal s (Some audio)
  = (Some (mkFile WAVE_FORMAT_EXTENSIBLE (uint_at s 22 2) (uint_at s 24 4)
                  (uint_at s 28 4) (uint_at s 32 2) (uint_at s 34 2) (uint_at s 76 4)
                  (field s 80 (Z.to_nat (uint_at s 76 4))) (offset audio)),
     None).
Proof.
  intros Htag H80. unfold Unmarshal. read_fields. rewrite Htag.
  change (WAVE_FORMAT_EXTENSIBLE =? WAVE_FORMAT_PCM) with false.
  change (WAVE_FORMAT_EXTENSIBLE =? WAVE_FORMAT_EXTENSIBLE) with true.
  cbn [negb orb]. read_fields. reflexivity.
Qed.

(** X25. The round trip does not need the payload to be complete: for every
    buffer that has the whole header of the profile (PCM, or EXTENSIBLE with
    the derived valid bits, mask and frame count) and holds no more payload
    bytes than it declares, possibly fewer, [Marshal] of what [Unmarshal]
    decodes is the buffer again, byte for byte; a buffer that ends early is
    written back ending early, with its declared length unchanged. *)
Theorem Marshal_Unmarshal_roundtrip_cut_short (s : list byte) (audio : File) :
  cut_short_PCM s \/ cut_short_EXTENSIBLE s ->
  exists f, Unmarshal s (Some audio) = (Some f, None) /\ Marshal f = Ok s /\
            Z.of_nat (len (data f)) <= length f.
Proof.
  intros [H | H].
  - destruct H as (Hriff & Hsize & Hwave & Hfmt & Htag & Hdata & Hlen).
    assert (H44 : (44 <= len s)%nat) by lia.
    assert (Hpay : field s 44 (Z.to_nat (uint_at s 40 4)) = skipn 44 s).
    { unfold field. apply firstn_all2. rewrite length_skipn. lia. }
    eexists. split; [apply Unmarshal_PCM_header; [exact Htag | exact H44]|].
    cbn [length data]. rewrite Hpay, length_skipn.
    split; [|lia].
    rewrite Marshal_PCM by reflexivity.
    cbn [formatTag channels samplesPerSec avgBytesPerSec blockAlign bitsPerSample
         length data].
    f_equal.
    rewrite <- Hsize, <- Hfmt, <- Htag, <- Hriff, <- Hwave, <- Hdata.
    rewrite !put_le_uint_at by lia.
    symmetry. change s with (skipn 0 s) at 1.
    peel s 0 4. peel s 4 4. peel s 8 8. peel s 16 4. peel s 20 2. peel s 22 2.
    peel s 24 4. peel s 28 4. peel s 32 2. peel s 34 2. peel s 36 4. peel s 40 4.
    reflexivity.
  - destruct H as (Hriff & Hsize & Hwave & Hfmt & Htag & Hcb & Hvalid & Hmask &
                   Hguid & Hfact & Hfsize & Hba & Hframes & Hdata & Hlen).
    assert (H80 : (80 <= len s)%nat) by lia.
    assert (Hpay : field s 80 (Z.to_nat (uint_at s 76 4)) = skipn 80 s).
    { unfold field. apply firstn_all2. rewrite length_skipn. lia. }
    eexists. split; [apply Unmarshal_EXTENSIBLE_header; [exact Htag | exact H80]|].
    cbn [length data]. rewrite Hpay, length_skipn.
    split; [|lia].
    rewrite Marshal_EXTENSIBLE by (cbn [formatTag blockAlign]; auto).
    cbn [formatTag channels samplesPerSec avgBytesPerSec blockAlign bitsPerSample
         length data].
    f_equal.
    assert (Hb0 : 0 <= uint_at s 32 2) by (unfold uint_at; apply le_uint_range).
    assert (HL : 0 <= uint_at s 76 4) by (unfold uint_at; apply le_uint_range).
    rewrite Z.quot_div_nonneg by lia.
    rewrite <- Hframes, <- Hmask.
    rewrite (uint32_small (uint_at s 68 4)) by (apply uint_at_4_range; lia).
    rewrite (uint32_small (uint_at s 40 4)) by (apply uint_at_4_range; lia).
    rewrite <- Hsize, <- Hfmt, <- Htag, <- Hriff, <- Hwave, <- Hdata, <- Hcb,
      <- Hguid, <- Hfact, <- Hfsize.
    rewrite <- Hvalid at 2.
    rewrite !put_le_uint_at by lia.
    symmetry. change s with (skipn 0 s) at 1.
    peel s 0 4. peel s 4 4. peel s 8 8. peel s 16 4. peel s 20 2. peel s 22 2.
    peel s 24 4. peel s 28 4. peel s 32 2. peel s 34 2. peel s 36 2. peel s 38 2.
    peel s 40 4. peel s 44 16. peel s 60 4. peel s 64 4. peel s 68 4. peel s 72 4.
    peel s 76 4.
    reflexivity.
Qed.

Lemma truncated_stream_cut_short : cut_short_PCM truncated_stream.
Proof.
  unfold cut_short_PCM. repeat split; vm_compute; (reflexivity || discriminate).
Qed.

Lemma Marshal_Unmarshal_roundtrip_cut_short_witness :
  exists f, Unmarshal truncated_stream (Some File_zero) = (Some f, None) /\
            Marshal f = Ok truncated_stream.
Proof.
  destruct (Marshal_Unmarshal_roundtrip_cut_short truncated_stream File_zero
              (or_introl truncated_stream_cut_short)) as (f & HU & HM & _).
  exists f. split; assumption.
Defined.
